(** * Mission Control hub: the puzzle progression state machine

    A shallow embedding of [src/main.cpp]: the globals of the anonymous
    namespace become one record, every function that touches them becomes
    a computation in a small monad (clock reader + state + serial writer +
    undefined behaviour), and the HTTP handlers become a dispatcher over a
    request type.  The theorems at the end relate the embedding to the
    behavioural specification of the game. *)

From Stdlib Require Import ZArith List Bool Ascii Lia.
Import ListNotations.
Local Open Scope Z_scope.

(** ** Machine integers

    The sketch targets the ESP32 Arduino core ([WiFi.h], [WebServer.h]),
    where [unsigned long], [long] and [size_t] are all 32 bits wide. *)
Module Machine.

Definition WORD_BITS : Z := 32.
Definition modulus : Z := 2 ^ WORD_BITS.
Definition half_modulus : Z := 2 ^ (WORD_BITS - 1).

(** Value of an arithmetic result stored in an [unsigned long] / [size_t]. *)
Definition to_unsigned (x : Z) : Z := x mod modulus.

(** The cast [(long) x] of an unsigned 32-bit value. *)
Definition to_signed (x : Z) : Z :=
  let u := x mod modulus in
  if u <? half_modulus then u else u - modulus.

Definition is_word (x : Z) : Prop := 0 <= x < modulus.

End Machine.

(** ** Constants and enumerations *)

Definition SEQUENCE_ERROR_FLASH_MS : Z := 2500.

Definition BUTTON_SEQUENCE : list Z :=
  [4; 1; 5; 1; 3; 5; 4; 2; 1; 3; 2; 4; 5; 3; 1].

Definition BUTTON_SEQUENCE_LENGTH : Z := Z.of_nat (length BUTTON_SEQUENCE).

Inductive GameState := Puzzle1 | Puzzle2 | Puzzle3 | MissionComplete.

Inductive ConduitConfirmResult := Accepted | AlreadyConfirmed | WrongState.

Definition GameState_eqb (a b : GameState) : bool :=
  match a, b with
  | Puzzle1, Puzzle1 | Puzzle2, Puzzle2
  | Puzzle3, Puzzle3 | MissionComplete, MissionComplete => true
  | _, _ => false
  end.

(** ** The globals of the sketch *)

Record Globals := mkGlobals {
  currentState : GameState;
  nextSequenceIndex : Z;
  latchTriggered : bool;
  conduitsVerified : bool;
  sequenceError : bool;
  sequenceErrorExpiresAt : Z
}.

(** The initializers of the global variables. *)
Definition boot : Globals :=
  {| currentState := Puzzle1;
     nextSequenceIndex := 0;
     latchTriggered := false;
     conduitsVerified := false;
     sequenceError := false;
     sequenceErrorExpiresAt := 0 |}.

Definition set_currentState (v : GameState) (g : Globals) : Globals :=
  mkGlobals v (nextSequenceIndex g) (latchTriggered g) (conduitsVerified g)
            (sequenceError g) (sequenceErrorExpiresAt g).

Definition set_nextSequenceIndex (v : Z) (g : Globals) : Globals :=
  mkGlobals (currentState g) v (latchTriggered g) (conduitsVerified g)
            (sequenceError g) (sequenceErrorExpiresAt g).

Definition set_latchTriggered (v : bool) (g : Globals) : Globals :=
  mkGlobals (currentState g) (nextSequenceIndex g) v (conduitsVerified g)
            (sequenceError g) (sequenceErrorExpiresAt g).

Definition set_conduitsVerified (v : bool) (g : Globals) : Globals :=
  mkGlobals (currentState g) (nextSequenceIndex g) (latchTriggered g) v
            (sequenceError g) (sequenceErrorExpiresAt g).

Definition set_sequenceError (v : bool) (g : Globals) : Globals :=
  mkGlobals (currentState g) (nextSequenceIndex g) (latchTriggered g)
            (conduitsVerified g) v (sequenceErrorExpiresAt g).

Definition set_sequenceErrorExpiresAt (v : Z) (g : Globals) : Globals :=
  mkGlobals (currentState g) (nextSequenceIndex g) (latchTriggered g)
            (conduitsVerified g) (sequenceError g) v.

(** ** Serial output

    One constructor per distinct [Serial.println] / [Serial.printf] call of
    the game logic; the arguments are the values formatted into the line. *)
Inductive SerialLine :=
| Latch_released            (* "[Latch] Servo/solenoid triggered to release tacklebox bottom." *)
| Game_reset                (* "[Game] Reset to Puzzle 1." *)
| Game_mission_complete     (* "[Game] Mission Complete triggered." *)
| Game_already_complete     (* "[Game] Already complete. Ignoring advance request." *)
| Game_advanced_2           (* "[Game] Advanced to Puzzle 2." *)
| Game_advanced_3           (* "[Game] Advanced to Puzzle 3. Sequence tracking reset." *)
| Game_invalid_transition   (* "[Game] Invalid state transition requested." *)
| Remote_A                  (* "[Remote] Button A pressed." *)
| Remote_B                  (* "[Remote] Button B pressed." *)
| Remote_C                  (* "[Remote] Button C pressed. Resetting game." *)
| Remote_D                  (* "[Remote] Button D pressed. Forcing completion." *)
| Remote_unknown            (* "[Remote] Unknown button." *)
| Buttons_ignored           (* "[Buttons] Ignored press outside Puzzle 3." *)
| Buttons_received (buttonId : Z)          (* "[Buttons] Received button %u" *)
| Buttons_progress (index total : Z)       (* "[Buttons] Progress %u/%u" *)
| Buttons_incorrect (expected : Z)         (* "[Buttons] Incorrect input (expected %u). Sequence reset." *)
| Conduits_ignored          (* "[Conduits] Confirmation ignored (not in Puzzle 2)." *)
| Conduits_already          (* "[Conduits] Already verified." *)
| Conduits_confirmed.       (* "[Conduits] GM confirmed power conduits. Code 264 unlocked." *)

(** ** The monad of a handler

    A computation reads the clock ([millis()], one reading per dispatched
    request), threads the globals and appends to the serial console.  The
    only undefined behaviour of the game logic is an array read outside
    [BUTTON_SEQUENCE]; it is kept as a separate outcome. *)
Inductive Outcome (A : Type) : Type :=
| Returns (value : A) (globals : Globals) (serial : list SerialLine)
| Undefined.

Arguments Returns {A} value globals serial.
Arguments Undefined {A}.

Definition Op (A : Type) : Type := Z -> Globals -> Outcome A.

Definition ret {A} (a : A) : Op A := fun _ g => Returns a g [].

Definition bind {A B} (m : Op A) (k : A -> Op B) : Op B :=
  fun now g =>
    match m now g with
    | Returns a g1 out1 =>
        match k a now g1 with
        | Returns b g2 out2 => Returns b g2 (out1 ++ out2)
        | Undefined => Undefined
        end
    | Undefined => Undefined
    end.

Declare Scope op_scope.
Delimit Scope op_scope with op.
Notation "x <- m ;; k" := (bind m (fun x => k))
  (at level 61, m at next level, right associativity) : op_scope.
Notation "m ;; k" := (bind m (fun _ => k))
  (at level 61, right associativity) : op_scope.
Local Open Scope op_scope.

Definition read {A} (field : Globals -> A) : Op A :=
  fun _ g => Returns (field g) g [].

Definition write (update : Globals -> Globals) : Op unit :=
  fun _ g => Returns tt (update g) [].

Definition millis : Op Z := fun now g => Returns now g [].

Definition Serial_println (l : SerialLine) : Op unit :=
  fun _ g => Returns tt g [l].

(** [a[i]] on a C array: defined only inside the array. *)
Definition array_at (a : list Z) (i : Z) : Op Z :=
  fun _ g =>
    if i <? 0 then Undefined
    else match nth_error a (Z.to_nat i) with
         | Some v => Returns v g []
         | None => Undefined
         end.

(** Projections of an outcome, for statements. *)
Definition final_globals {A} (o : Outcome A) : option Globals :=
  match o with Returns _ g _ => Some g | Undefined => None end.

Definition serial_of {A} (o : Outcome A) : list SerialLine :=
  match o with Returns _ _ out => out | Undefined => [] end.

(** ** Game logic *)

Definition triggerLatch : Op unit :=
  triggered <- read latchTriggered ;;
  if (triggered : bool) then ret tt
  else
    write (set_latchTriggered true) ;;
    Serial_println Latch_released.

Definition resetSequenceTracking : Op unit :=
  write (set_nextSequenceIndex 0).

Definition clearSequenceError : Op unit :=
  write (set_sequenceError false) ;;
  write (set_sequenceErrorExpiresAt 0).

Definition markSequenceError : Op unit :=
  write (set_sequenceError true) ;;
  now <- millis ;;
  write (set_sequenceErrorExpiresAt
           (Machine.to_unsigned (now + SEQUENCE_ERROR_FLASH_MS))).

Definition isSequenceErrorActive : Op bool :=
  flagged <- read sequenceError ;;
  if negb flagged then ret false
  else
    now <- millis ;;
    expires <- read sequenceErrorExpiresAt ;;
    if Machine.to_signed (Machine.to_unsigned (now - expires)) >=? 0 then
      clearSequenceError ;;
      ret false
    else ret true.

Definition resetGame : Op unit :=
  write (set_currentState Puzzle1) ;;
  write (set_latchTriggered false) ;;
  write (set_conduitsVerified false) ;;
  clearSequenceError ;;
  resetSequenceTracking ;;
  Serial_println Game_reset.

Definition completeMission : Op unit :=
  write (set_currentState MissionComplete) ;;
  clearSequenceError ;;
  triggerLatch ;;
  Serial_println Game_mission_complete.

Definition advanceToPuzzle (target : GameState) : Op unit :=
  current <- read currentState ;;
  if GameState_eqb current MissionComplete then
    Serial_println Game_already_complete
  else if GameState_eqb target Puzzle2 && GameState_eqb current Puzzle1 then
    write (set_currentState Puzzle2) ;;
    write (set_conduitsVerified false) ;;
    clearSequenceError ;;
    Serial_println Game_advanced_2
  else if GameState_eqb target Puzzle3 && GameState_eqb current Puzzle2 then
    write (set_currentState Puzzle3) ;;
    clearSequenceError ;;
    resetSequenceTracking ;;
    Serial_println Game_advanced_3
  else if GameState_eqb target MissionComplete && GameState_eqb current Puzzle3 then
    completeMission
  else
    Serial_println Game_invalid_transition.

Definition handleRemoteButton (button : ascii) : Op unit :=
  match button with
  | "A"%char | "a"%char =>
      Serial_println Remote_A ;; advanceToPuzzle Puzzle2
  | "B"%char | "b"%char =>
      Serial_println Remote_B ;; advanceToPuzzle Puzzle3
  | "C"%char | "c"%char =>
      Serial_println Remote_C ;; resetGame
  | "D"%char | "d"%char =>
      Serial_println Remote_D ;; completeMission
  | _ => Serial_println Remote_unknown
  end.

Definition registerButtonPress (buttonId : Z) : Op unit :=
  current <- read currentState ;;
  if negb (GameState_eqb current Puzzle3) then
    Serial_println Buttons_ignored
  else
    Serial_println (Buttons_received buttonId) ;;
    index <- read nextSequenceIndex ;;
    expected <- array_at BUTTON_SEQUENCE index ;;
    if buttonId =? expected then
      clearSequenceError ;;
      write (set_nextSequenceIndex (Machine.to_unsigned (index + 1))) ;;
      index' <- read nextSequenceIndex ;;
      Serial_println (Buttons_progress index' BUTTON_SEQUENCE_LENGTH) ;;
      if index' >=? BUTTON_SEQUENCE_LENGTH then completeMission else ret tt
    else
      Serial_println (Buttons_incorrect expected) ;;
      markSequenceError ;;
      resetSequenceTracking.

Definition confirmConduitsAligned : Op ConduitConfirmResult :=
  current <- read currentState ;;
  if negb (GameState_eqb current Puzzle2) then
    Serial_println Conduits_ignored ;;
    ret WrongState
  else
    verified <- read conduitsVerified ;;
    if (verified : bool) then
      Serial_println Conduits_already ;;
      ret AlreadyConfirmed
    else
      write (set_conduitsVerified true) ;;
      Serial_println Conduits_confirmed ;;
      ret Accepted.

(** ** The display projection

    The HTML fragments are kept as a structured payload: which story is
    shown, and for the button puzzle the per-slot classes and the alert. *)

Inductive StepClass := step_done | step_active | step_pending.

Record SequenceStatus := mkSequenceStatus {
  next_input : option Z;              (* [None] is the check mark *)
  steps : list (StepClass * Z)
}.

Inductive StoryText :=
| Story_lost_signal
| Story_conduits_pending
| Story_conduits_verified
| Story_button_sequence (status : SequenceStatus) (alert : bool)
| Story_mission_complete.

Fixpoint sequence_row (index i : Z) (rest : list Z) : list (StepClass * Z) :=
  match rest with
  | [] => []
  | b :: rest' =>
      ((if i <? index then step_done
        else if i =? index then step_active
        else step_pending), b) :: sequence_row index (i + 1) rest'
  end.

Definition buildSequenceStatusHtml : Op SequenceStatus :=
  index <- read nextSequenceIndex ;;
  current <- (if index <? BUTTON_SEQUENCE_LENGTH then
                v <- array_at BUTTON_SEQUENCE index ;; ret (Some v)
              else ret None) ;;
  ret (mkSequenceStatus current (sequence_row index 0 BUTTON_SEQUENCE)).

Definition storyTextForState : Op StoryText :=
  current <- read currentState ;;
  match current with
  | Puzzle1 => ret Story_lost_signal
  | Puzzle2 =>
      verified <- read conduitsVerified ;;
      if negb verified then ret Story_conduits_pending
      else ret Story_conduits_verified
  | Puzzle3 =>
      status <- buildSequenceStatusHtml ;;
      alert <- isSequenceErrorActive ;;
      ret (Story_button_sequence status alert)
  | MissionComplete => ret Story_mission_complete
  end.

Definition gameStateLabel : Op GameState := read currentState.

(** ** The HTTP endpoints

    A query argument that is absent or empty is [None]; [btn] is the first
    character of the argument and [id] the integer [toInt()] parsed. *)

Inductive Request :=
| GET_root
| GET_dcd_fragment
| GET_control
| GET_remote (btn : option ascii)
| GET_puzzle_button (id : option Z)
| GET_confirm_conduits
| GET_elsewhere.

Inductive Body :=
| Page_dcd (story : StoryText)
| Fragment_dcd (story : StoryText)
| Page_control (label : GameState)
| Text_remote_accepted (btn : ascii)
| Text_button_registered (value : Z)
| Text_conduits_confirmed
| Text_conduits_already
| Text_conduits_ignored
| Text_bad_request_btn
| Text_bad_request_id
| Text_bad_request_range
| Text_not_found.

Record Response := mkResponse { status : Z; body : Body }.

Definition handleRoot : Op Response :=
  story <- storyTextForState ;; ret (mkResponse 200 (Page_dcd story)).

Definition handleDcdFragment : Op Response :=
  story <- storyTextForState ;; ret (mkResponse 200 (Fragment_dcd story)).

Definition handleControlPanel : Op Response :=
  label <- gameStateLabel ;; ret (mkResponse 200 (Page_control label)).

Definition handleRemoteEndpoint (arg : option ascii) : Op Response :=
  match arg with
  | None => ret (mkResponse 400 Text_bad_request_btn)
  | Some btn =>
      handleRemoteButton btn ;;
      ret (mkResponse 200 (Text_remote_accepted btn))
  end.

Definition handlePuzzleButtonEndpoint (arg : option Z) : Op Response :=
  match arg with
  | None => ret (mkResponse 400 Text_bad_request_id)
  | Some value =>
      if (value <? 1) || (value >? 5) then
        ret (mkResponse 400 Text_bad_request_range)
      else
        registerButtonPress (value mod 256) ;;
        ret (mkResponse 200 (Text_button_registered value))
  end.

Definition handleConfirmConduitsEndpoint : Op Response :=
  result <- confirmConduitsAligned ;;
  match result with
  | Accepted => ret (mkResponse 200 Text_conduits_confirmed)
  | AlreadyConfirmed => ret (mkResponse 200 Text_conduits_already)
  | WrongState => ret (mkResponse 200 Text_conduits_ignored)
  end.

Definition handleNotFound : Op Response :=
  ret (mkResponse 404 Text_not_found).

(** [server.handleClient()] with the routes of [configureRoutes]. *)
Definition handleClient (req : Request) : Op Response :=
  match req with
  | GET_root => handleRoot
  | GET_dcd_fragment => handleDcdFragment
  | GET_control => handleControlPanel
  | GET_remote btn => handleRemoteEndpoint btn
  | GET_puzzle_button id => handlePuzzleButtonEndpoint id
  | GET_confirm_conduits => handleConfirmConduitsEndpoint
  | GET_elsewhere => handleNotFound
  end.

(** ** Runs of the device *)

(** States the device can be in between two requests: the boot state, and
    whatever a request served at some clock reading leaves behind. *)
Inductive reachable : Globals -> Prop :=
| reachable_boot : reachable boot
| reachable_request (g g' : Globals) (now : Z) (req : Request)
    (resp : Response) (out : list SerialLine) :
    reachable g ->
    Machine.is_word now ->
    handleClient req now g = Returns resp g' out ->
    reachable g'.

(** Serving a list of requests, each with the clock reading at its arrival;
    the serial output is accumulated. *)
Fixpoint serve (reqs : list (Z * Request)) (g : Globals)
  : option (Globals * list SerialLine) :=
  match reqs with
  | [] => Some (g, [])
  | (now, req) :: rest =>
      match handleClient req now g with
      | Returns _ g1 out1 =>
          match serve rest g1 with
          | Some (g2, out2) => Some (g2, out1 ++ out2)
          | None => None
          end
      | Undefined => None
      end
  end.

(** Pressing a list of puzzle buttons in order; [clock k] is the reading of
    [millis()] during the [k]-th press. *)
Fixpoint press_all (clock : nat -> Z) (k : nat) (ids : list Z) (g : Globals)
  : Outcome unit :=
  match ids with
  | [] => Returns tt g []
  | id :: rest =>
      match registerButtonPress id (clock k) g with
      | Returns _ g1 out1 =>
          match press_all clock (S k) rest g1 with
          | Returns _ g2 out2 => Returns tt g2 (out1 ++ out2)
          | Undefined => Undefined
          end
      | Undefined => Undefined
      end
  end.

(** The console lines of a run of correct presses starting at [index]. *)
Fixpoint pattern_console (index : Z) (ids : list Z) : list SerialLine :=
  match ids with
  | [] => []
  | id :: rest =>
      Buttons_received id
      :: Buttons_progress (index + 1) BUTTON_SEQUENCE_LENGTH
      :: pattern_console (index + 1) rest
  end.

Definition SerialLine_is_latch (l : SerialLine) : bool :=
  match l with Latch_released => true | _ => false end.

(** How many times the latch actuator fired in a stretch of serial output. *)
Definition latch_firings (out : list SerialLine) : nat :=
  length (filter SerialLine_is_latch out).

(** The lines with which an operation reports that it refused the request. *)
Definition SerialLine_is_rejection (l : SerialLine) : bool :=
  match l with
  | Game_already_complete | Game_invalid_transition
  | Remote_unknown | Buttons_ignored
  | Conduits_ignored | Conduits_already => true
  | _ => false
  end.

Definition rejected (out : list SerialLine) : bool :=
  existsb SerialLine_is_rejection out.

(** The remote buttons that reach [resetGame], and the requests carrying
    one: a session of the game runs between two of them. *)
Definition is_reset_button (btn : ascii) : bool :=
  match btn with "C"%char | "c"%char => true | _ => false end.

Definition is_remote_reset (req : Request) : bool :=
  match req with
  | GET_remote (Some btn) => is_reset_button btn
  | _ => false
  end.

(** ** Effects of a request, and the invariants of a run *)

(** The effect of one served request on the globals and the console, in
    terms of the game operation it reaches. *)
Inductive served (now : Z) (g : Globals)
  : Request -> Globals -> list SerialLine -> Prop :=
| served_idle req :
    is_remote_reset req = false ->
    served now g req g []
| served_story req alert g' :
    is_remote_reset req = false ->
    currentState g = Puzzle3 ->
    isSequenceErrorActive now g = Returns alert g' [] ->
    served now g req g' []
| served_advance req line target g' out :
    is_remote_reset req = false ->
    line = Remote_A \/ line = Remote_B ->
    advanceToPuzzle target now g = Returns tt g' out ->
    served now g req g' (line :: out)
| served_reset req :
    is_remote_reset req = true ->
    served now g req boot [Remote_C; Game_reset]
| served_complete req g' out :
    is_remote_reset req = false ->
    completeMission now g = Returns tt g' out ->
    served now g req g' (Remote_D :: out)
| served_unknown req :
    is_remote_reset req = false ->
    served now g req g [Remote_unknown]
| served_press req id g' out :
    is_remote_reset req = false ->
    1 <= id <= 5 ->
    registerButtonPress id now g = Returns tt g' out ->
    served now g req g' out
| served_confirm result g' out :
    confirmConduitsAligned now g = Returns result g' out ->
    served now g GET_confirm_conduits g' out.

(** The index stays inside the pattern while the button puzzle is active
    (and never exceeds its length in any stage). *)
Definition index_in_bounds (g : Globals) : Prop :=
  0 <= nextSequenceIndex g <= BUTTON_SEQUENCE_LENGTH /\
  (currentState g = Puzzle3 -> nextSequenceIndex g < BUTTON_SEQUENCE_LENGTH).

(** The conduit gate is never set in the first puzzle. *)
Definition conduits_gate (g : Globals) : Prop :=
  conduitsVerified g = true -> currentState g <> Puzzle1.

Definition bool_to_nat (b : bool) : nat := if b then 1%nat else 0%nat.

(** ** Observations for the session properties *)

(** The enumerators of [GameState] in declaration order. *)
Definition stage_rank (s : GameState) : nat :=
  match s with
  | Puzzle1 => 0 | Puzzle2 => 1 | Puzzle3 => 2 | MissionComplete => 3
  end.

(** A list of requests that stays within one session: no remote reset. *)
Definition in_session (reqs : list (Z * Request)) : bool :=
  forallb (fun r => negb (is_remote_reset (snd r))) reqs.

(** The part of the globals that is the progress of the game, without the
    timed error display. *)
Definition progress_of (g : Globals) : GameState * Z * bool * bool :=
  (currentState g, nextSequenceIndex g, latchTriggered g, conduitsVerified g).

(** The remote characters with a case in [handleRemoteButton]. *)
Definition is_bound_button (btn : ascii) : bool :=
  match btn with
  | "A"%char | "a"%char | "B"%char | "b"%char
  | "C"%char | "c"%char | "D"%char | "d"%char => true
  | _ => false
  end.

(** The status code each handler sends for a request. *)
Definition status_of_request (req : Request) : Z :=
  match req with
  | GET_remote None | GET_puzzle_button None => 400
  | GET_puzzle_button (Some value) =>
      if (value <? 1) || (value >? 5) then 400 else 200
  | GET_elsewhere => 404
  | _ => 200
  end.

(** The class [buildSequenceStatusHtml] gives to slot [i]. *)
Definition step_class (index i : Z) : StepClass :=
  if i <? index then step_done
  else if i =? index then step_active
  else step_pending.

(** The latch flag is set exactly in the final stage. *)
Definition latch_matches_stage (g : Globals) : Prop :=
  latchTriggered g = true <-> currentState g = MissionComplete.

(** The error display is only armed in the button puzzle, at the start of
    the pattern, and its expiry is a clock value; unarmed, the expiry is 0. *)
Definition error_display_consistent (g : Globals) : Prop :=
  (sequenceError g = true ->
   currentState g = Puzzle3 /\ nextSequenceIndex g = 0) /\
  (sequenceError g = false -> sequenceErrorExpiresAt g = 0) /\
  Machine.is_word (sequenceErrorExpiresAt g).

(** * Symbolic execution of the operations *)

Arguments Machine.to_unsigned : simpl never.
Arguments Machine.to_signed : simpl never.

Ltac unfold_game :=
  unfold handleClient, handleRoot, handleDcdFragment, handleControlPanel,
    handleRemoteEndpoint, handlePuzzleButtonEndpoint,
    handleConfirmConduitsEndpoint, handleNotFound,
    storyTextForState, gameStateLabel, buildSequenceStatusHtml,
    confirmConduitsAligned, registerButtonPress, advanceToPuzzle,
    completeMission, resetGame, isSequenceErrorActive, markSequenceError,
    clearSequenceError, resetSequenceTracking, triggerLatch in *.

Ltac unfold_monad :=
  unfold bind, ret, read, write, millis, Serial_println in *.

Ltac unfold_setters :=
  unfold set_currentState, set_nextSequenceIndex, set_latchTriggered,
    set_conduitsVerified, set_sequenceError, set_sequenceErrorExpiresAt in *.

(** Run an operation on a state whose fields are exposed. *)
Ltac exec := unfold_game; unfold_monad; unfold_setters; cbn.

Section Operations.

Variable now : Z.

Lemma triggerLatch_run (g : Globals) :
  triggerLatch now g =
  Returns tt (set_latchTriggered true g)
          (if latchTriggered g then [] else [Latch_released]).
Proof. destruct g as [st i [|] cv e x]; reflexivity. Qed.

Lemma clearSequenceError_run (g : Globals) :
  clearSequenceError now g =
  Returns tt (mkGlobals (currentState g) (nextSequenceIndex g)
                        (latchTriggered g) (conduitsVerified g) false 0) [].
Proof. reflexivity. Qed.

Lemma completeMission_run (g : Globals) :
  completeMission now g =
  Returns tt
    (mkGlobals MissionComplete (nextSequenceIndex g) true
               (conduitsVerified g) false 0)
    (if latchTriggered g then [Game_mission_complete]
     else [Latch_released; Game_mission_complete]).
Proof. destruct g as [st i [|] cv e x]; reflexivity. Qed.

Lemma resetGame_run (g : Globals) :
  resetGame now g = Returns tt boot [Game_reset].
Proof. reflexivity. Qed.

Lemma advanceToPuzzle_run (target : GameState) (g : Globals) :
  advanceToPuzzle target now g =
  match currentState g, target with
  | MissionComplete, _ => Returns tt g [Game_already_complete]
  | Puzzle1, Puzzle2 =>
      Returns tt (mkGlobals Puzzle2 (nextSequenceIndex g) (latchTriggered g)
                            false false 0) [Game_advanced_2]
  | Puzzle2, Puzzle3 =>
      Returns tt (mkGlobals Puzzle3 0 (latchTriggered g)
                            (conduitsVerified g) false 0) [Game_advanced_3]
  | Puzzle3, MissionComplete => completeMission now g
  | _, _ => Returns tt g [Game_invalid_transition]
  end.
Proof.
  destruct g as [st i [|] cv e x]; destruct st, target; reflexivity.
Qed.

Lemma confirmConduitsAligned_run (g : Globals) :
  confirmConduitsAligned now g =
  match currentState g with
  | Puzzle2 =>
      if conduitsVerified g
      then Returns AlreadyConfirmed g [Conduits_already]
      else Returns Accepted (set_conduitsVerified true g) [Conduits_confirmed]
  | _ => Returns WrongState g [Conduits_ignored]
  end.
Proof. destruct g as [st i l [|] e x]; destruct st; reflexivity. Qed.

Lemma isSequenceErrorActive_run (g : Globals) :
  isSequenceErrorActive now g =
  if negb (sequenceError g) then Returns false g []
  else if Machine.to_signed
            (Machine.to_unsigned (now - sequenceErrorExpiresAt g)) >=? 0
       then Returns false
              (mkGlobals (currentState g) (nextSequenceIndex g)
                         (latchTriggered g) (conduitsVerified g) false 0) []
       else Returns true g [].
Proof.
  destruct g as [st i l cv [|] x]; exec; [|reflexivity].
  destruct (_ >=? 0); reflexivity.
Qed.

Lemma registerButtonPress_outside (buttonId : Z) (g : Globals) :
  currentState g <> Puzzle3 ->
  registerButtonPress buttonId now g = Returns tt g [Buttons_ignored].
Proof.
  destruct g as [st i l cv e x]; destruct st; cbn; intros H;
    try reflexivity; congruence.
Qed.

Lemma registerButtonPress_match (g : Globals) (expected : Z) :
  currentState g = Puzzle3 ->
  0 <= nextSequenceIndex g ->
  nth_error BUTTON_SEQUENCE (Z.to_nat (nextSequenceIndex g)) = Some expected ->
  registerButtonPress expected now g =
  let index' := Machine.to_unsigned (nextSequenceIndex g + 1) in
  if index' >=? BUTTON_SEQUENCE_LENGTH then
    Returns tt
      (mkGlobals MissionComplete index' true (conduitsVerified g) false 0)
      ([Buttons_received expected;
        Buttons_progress index' BUTTON_SEQUENCE_LENGTH] ++
       (if latchTriggered g then [Game_mission_complete]
        else [Latch_released; Game_mission_complete]))
  else
    Returns tt
      (mkGlobals Puzzle3 index' (latchTriggered g) (conduitsVerified g) false 0)
      [Buttons_received expected;
       Buttons_progress index' BUTTON_SEQUENCE_LENGTH].
Proof.
  destruct g as [st i l cv e x]; cbn [currentState nextSequenceIndex
    latchTriggered conduitsVerified]; intros -> Hi Hnth.
  unfold registerButtonPress, array_at. unfold_monad. cbn.
  destruct (Z.ltb_spec i 0); [lia|].
  rewrite Hnth, Z.eqb_refl. exec.
  destruct (Machine.to_unsigned (i + 1) >=? 15); [destruct l|]; reflexivity.
Qed.

Lemma registerButtonPress_mismatch (buttonId : Z) (g : Globals) (expected : Z) :
  currentState g = Puzzle3 ->
  0 <= nextSequenceIndex g ->
  nth_error BUTTON_SEQUENCE (Z.to_nat (nextSequenceIndex g)) = Some expected ->
  buttonId <> expected ->
  registerButtonPress buttonId now g =
  Returns tt
    (mkGlobals Puzzle3 0 (latchTriggered g) (conduitsVerified g) true
               (Machine.to_unsigned (now + SEQUENCE_ERROR_FLASH_MS)))
    [Buttons_received buttonId; Buttons_incorrect expected].
Proof.
  destruct g as [st i l cv e x]; cbn [currentState nextSequenceIndex
    latchTriggered conduitsVerified]; intros -> Hi Hnth Hne.
  unfold registerButtonPress, array_at. unfold_monad. cbn.
  destruct (Z.ltb_spec i 0); [lia|].
  rewrite Hnth. destruct (Z.eqb_spec buttonId expected); [congruence|].
  reflexivity.
Qed.

Lemma registerButtonPress_out_of_bounds (buttonId : Z) (g : Globals) :
  currentState g = Puzzle3 ->
  nextSequenceIndex g < 0 \/ BUTTON_SEQUENCE_LENGTH <= nextSequenceIndex g ->
  registerButtonPress buttonId now g = Undefined.
Proof.
  destruct g as [st i l cv e x]; cbn [currentState nextSequenceIndex];
    intros -> Hi.
  unfold registerButtonPress, array_at. unfold_monad. cbn.
  destruct (Z.ltb_spec i 0); [reflexivity|].
  assert (Hnone : nth_error BUTTON_SEQUENCE (Z.to_nat i) = None).
  { apply nth_error_None. unfold BUTTON_SEQUENCE_LENGTH in Hi. lia. }
  rewrite Hnone. reflexivity.
Qed.

(** Every way in which a button press can return. *)
Lemma registerButtonPress_inv (buttonId : Z) (g g' : Globals)
      (out : list SerialLine) :
  registerButtonPress buttonId now g = Returns tt g' out ->
  (currentState g <> Puzzle3 /\ g' = g /\ out = [Buttons_ignored]) \/
  (currentState g = Puzzle3 /\
   0 <= nextSequenceIndex g < BUTTON_SEQUENCE_LENGTH /\
   exists expected,
     nth_error BUTTON_SEQUENCE (Z.to_nat (nextSequenceIndex g)) = Some expected /\
     let index' := Machine.to_unsigned (nextSequenceIndex g + 1) in
     ((buttonId = expected /\ index' < BUTTON_SEQUENCE_LENGTH /\
       g' = mkGlobals Puzzle3 index' (latchTriggered g) (conduitsVerified g)
                      false 0 /\
       out = [Buttons_received buttonId;
              Buttons_progress index' BUTTON_SEQUENCE_LENGTH]) \/
      (buttonId = expected /\ BUTTON_SEQUENCE_LENGTH <= index' /\
       g' = mkGlobals MissionComplete index' true (conduitsVerified g)
                      false 0 /\
       out = [Buttons_received buttonId;
              Buttons_progress index' BUTTON_SEQUENCE_LENGTH] ++
             (if latchTriggered g then [Game_mission_complete]
              else [Latch_released; Game_mission_complete])) \/
      (buttonId <> expected /\
       g' = mkGlobals Puzzle3 0 (latchTriggered g) (conduitsVerified g) true
                      (Machine.to_unsigned (now + SEQUENCE_ERROR_FLASH_MS)) /\
       out = [Buttons_received buttonId; Buttons_incorrect expected]))).
Proof.
  intros H.
  assert (Hst : currentState g = Puzzle3 \/ currentState g <> Puzzle3)
    by (destruct (currentState g); auto; right; discriminate).
  destruct Hst as [Hst|Hst].
  2:{ rewrite registerButtonPress_outside in H by assumption.
      inversion H; subst; left; repeat split; auto. }
  right. split; [assumption|].
  assert (Hrange : 0 <= nextSequenceIndex g < BUTTON_SEQUENCE_LENGTH).
  { destruct (Z_lt_ge_dec (nextSequenceIndex g) 0) as [Hneg|Hpos];
      [rewrite registerButtonPress_out_of_bounds in H by auto; discriminate|].
    destruct (Z_lt_ge_dec (nextSequenceIndex g) BUTTON_SEQUENCE_LENGTH)
      as [Hlt|Hge]; [lia|].
    rewrite registerButtonPress_out_of_bounds in H by (auto; right; lia).
    discriminate. }
  split; [assumption|].
  destruct (nth_error BUTTON_SEQUENCE (Z.to_nat (nextSequenceIndex g)))
    as [expected|] eqn:Hnth.
  2:{ apply nth_error_None in Hnth. unfold BUTTON_SEQUENCE_LENGTH in Hrange. lia. }
  exists expected. split; [reflexivity|]. cbv zeta.
  destruct (Z.eq_dec buttonId expected) as [->|Hne].
  - rewrite (registerButtonPress_match g expected) in H by (auto; lia).
    cbv zeta in H.
    destruct (Z.geb_spec (Machine.to_unsigned (nextSequenceIndex g + 1))
                         BUTTON_SEQUENCE_LENGTH) as [Hge|Hlt];
      inversion H; subst; [right; left|left]; repeat split; auto; lia.
  - rewrite (registerButtonPress_mismatch buttonId g expected) in H
      by (auto; lia).
    inversion H; subst. right; right. auto.
Qed.

End Operations.

(** * Clock arithmetic *)

Module MachineFacts.
Import Machine.

Ltac unfold_machine :=
  unfold is_word, to_signed, to_unsigned, half_modulus, modulus, WORD_BITS,
    SEQUENCE_ERROR_FLASH_MS in *;
  change (2 ^ 32) with 4294967296 in *;
  change (2 ^ (32 - 1)) with 2147483648 in *.

Lemma to_unsigned_small (x : Z) : is_word x -> to_unsigned x = x.
Proof. unfold_machine. intros H. apply Z.mod_small. exact H. Qed.

Lemma to_unsigned_word (x : Z) : is_word (to_unsigned x).
Proof. unfold_machine. apply Z.mod_pos_bound. lia. Qed.

(** The signed difference between a later clock reading and a deadline set
    [SEQUENCE_ERROR_FLASH_MS] after an earlier one only depends on the time
    elapsed, also across the roll-over of [millis()]. *)
Lemma signed_distance (now elapsed : Z) :
  to_signed (to_unsigned (to_unsigned (now + elapsed)
                          - to_unsigned (now + SEQUENCE_ERROR_FLASH_MS)))
  = to_signed (elapsed - SEQUENCE_ERROR_FLASH_MS).
Proof.
  unfold to_signed, to_unsigned. cbv zeta.
  rewrite Z.mod_mod by (unfold modulus, WORD_BITS; lia).
  rewrite <- Zminus_mod.
  replace (now + elapsed - (now + SEQUENCE_ERROR_FLASH_MS))
    with (elapsed - SEQUENCE_ERROR_FLASH_MS) by lia.
  reflexivity.
Qed.

Lemma to_signed_before (elapsed : Z) :
  0 <= elapsed < SEQUENCE_ERROR_FLASH_MS ->
  to_signed (elapsed - SEQUENCE_ERROR_FLASH_MS) < 0.
Proof.
  unfold_machine. intros H.
  replace ((elapsed - 2500) mod 4294967296) with (elapsed - 2500 + 4294967296).
  - destruct (Z.ltb_spec (elapsed - 2500 + 4294967296) 2147483648); lia.
  - apply Z.mod_unique with (q := -1); lia.
Qed.

Lemma to_signed_after (elapsed : Z) :
  SEQUENCE_ERROR_FLASH_MS <= elapsed < SEQUENCE_ERROR_FLASH_MS + half_modulus ->
  0 <= to_signed (elapsed - SEQUENCE_ERROR_FLASH_MS).
Proof.
  unfold_machine. intros H.
  rewrite Z.mod_small by lia.
  destruct (Z.ltb_spec (elapsed - 2500) 2147483648); lia.
Qed.

End MachineFacts.

(** * What a request does to the game *)

Lemma handleRemoteButton_cases (btn : ascii) :
  (is_reset_button btn = false /\
   handleRemoteButton btn = (Serial_println Remote_A ;; advanceToPuzzle Puzzle2)) \/
  (is_reset_button btn = false /\
   handleRemoteButton btn = (Serial_println Remote_B ;; advanceToPuzzle Puzzle3)) \/
  (is_reset_button btn = true /\
   handleRemoteButton btn = (Serial_println Remote_C ;; resetGame)) \/
  (is_reset_button btn = false /\
   handleRemoteButton btn = (Serial_println Remote_D ;; completeMission)) \/
  (is_reset_button btn = false /\
   handleRemoteButton btn = Serial_println Remote_unknown).
Proof.
  destruct btn as [[|] [|] [|] [|] [|] [|] [|] [|]]; cbn; auto 6.
Qed.

Lemma buildSequenceStatusHtml_pure (now : Z) (g : Globals)
      (s : SequenceStatus) (g1 : Globals) (o1 : list SerialLine) :
  buildSequenceStatusHtml now g = Returns s g1 o1 -> g1 = g /\ o1 = [].
Proof.
  unfold buildSequenceStatusHtml, array_at; unfold_monad.
  destruct (nextSequenceIndex g <? BUTTON_SEQUENCE_LENGTH).
  - destruct (nextSequenceIndex g <? 0); [discriminate|].
    destruct (nth_error _ _); [|discriminate].
    intros H; inversion H; auto.
  - intros H; inversion H; auto.
Qed.

Lemma isSequenceErrorActive_silent (now : Z) (g : Globals)
      (alert : bool) (g' : Globals) (out : list SerialLine) :
  isSequenceErrorActive now g = Returns alert g' out -> out = [].
Proof.
  rewrite isSequenceErrorActive_run.
  destruct (negb _); [intros H; inversion H; auto|].
  destruct (_ >=? 0); intros H; inversion H; auto.
Qed.

Lemma storyTextForState_served (now : Z) (g : Globals) (req : Request)
      (story : StoryText) (g' : Globals) (out : list SerialLine) :
  is_remote_reset req = false ->
  storyTextForState now g = Returns story g' out ->
  served now g req g' out.
Proof.
  intros Hreq H. unfold storyTextForState in H.
  destruct g as [st i l cv e x]. destruct st.
  - unfold_monad; cbn in H. inversion H; subst. apply served_idle; assumption.
  - unfold_monad; cbn in H.
    destruct cv; inversion H; subst; apply served_idle; assumption.
  - unfold bind at 1 in H. unfold read at 1 in H.
    cbn [currentState] in H. unfold bind at 1 in H.
    destruct (buildSequenceStatusHtml now _) as [s g1 o1|] eqn:Hb; [|discriminate].
    destruct (buildSequenceStatusHtml_pure _ _ _ _ _ Hb) as [-> ->].
    unfold bind in H.
    destruct (isSequenceErrorActive now _) as [a g2 o2|] eqn:Ha; [|discriminate].
    unfold ret in H. inversion H; subst.
    assert (o2 = []) by (eapply isSequenceErrorActive_silent; eauto).
    subst o2. eapply served_story; eauto.
  - unfold_monad; cbn in H. inversion H; subst. apply served_idle; assumption.
Qed.

Lemma handleClient_served (req : Request) (now : Z) (g : Globals)
      (resp : Response) (g' : Globals) (out : list SerialLine) :
  handleClient req now g = Returns resp g' out ->
  served now g req g' out.
Proof.
  destruct req as [ | | | [btn|] | [value|] | | ]; cbn [handleClient].
  - unfold handleRoot, bind. intros H.
    destruct (storyTextForState now g) as [s g1 o1|] eqn:Hs; [|discriminate].
    cbn in H. inversion H; subst. rewrite app_nil_r.
    eapply storyTextForState_served; eauto.
  - unfold handleDcdFragment, bind. intros H.
    destruct (storyTextForState now g) as [s g1 o1|] eqn:Hs; [|discriminate].
    cbn in H. inversion H; subst. rewrite app_nil_r.
    eapply storyTextForState_served; eauto.
  - intros H; inversion H; subst. apply served_idle; reflexivity.
  - unfold handleRemoteEndpoint.
    destruct (handleRemoteButton_cases btn)
      as [[Hr ->]|[[Hr ->]|[[Hr ->]|[[Hr ->]|[Hr ->]]]]];
      unfold bind, Serial_println, ret; intros H.
    + destruct (advanceToPuzzle Puzzle2 now g) as [[] g1 o1|] eqn:Ha; [|discriminate].
      inversion H; subst. rewrite app_nil_r. cbn.
      eapply served_advance; eauto.
    + destruct (advanceToPuzzle Puzzle3 now g) as [[] g1 o1|] eqn:Ha; [|discriminate].
      inversion H; subst. rewrite app_nil_r. cbn.
      eapply served_advance; eauto.
    + rewrite resetGame_run in H. inversion H; subst. cbn.
      apply served_reset; assumption.
    + destruct (completeMission now g) as [[] g1 o1|] eqn:Ha; [|discriminate].
      inversion H; subst. rewrite app_nil_r. cbn.
      eapply served_complete; eauto.
    + inversion H; subst. cbn. apply served_unknown; assumption.
  - intros H; inversion H; subst. apply served_idle; reflexivity.
  - unfold handlePuzzleButtonEndpoint.
    destruct (Z.ltb_spec value 1) as [Hlo|Hlo]; cbn [orb].
    { intros H; inversion H; subst. apply served_idle; reflexivity. }
    destruct (Z.gtb_spec value 5) as [Hhi|Hhi].
    { intros H; inversion H; subst. apply served_idle; reflexivity. }
    unfold bind, ret. intros H.
    rewrite Z.mod_small in H by lia.
    destruct (registerButtonPress value now g) as [[] g1 o1|] eqn:Ha; [|discriminate].
    inversion H; subst. rewrite app_nil_r.
    eapply served_press; eauto.
  - intros H; inversion H; subst. apply served_idle; reflexivity.
  - unfold handleConfirmConduitsEndpoint, bind. intros H.
    destruct (confirmConduitsAligned now g) as [r g1 o1|] eqn:Ha; [|discriminate].
    destruct r; cbn in H; inversion H; subst; rewrite app_nil_r;
      eapply served_confirm; eauto.
  - intros H; inversion H; subst. apply served_idle; reflexivity.
Qed.

(** * Invariants of the reachable states *)

Ltac served_inv H :=
  destruct H as
    [ req Hreq
    | req alert g' Hreq Hst Hpoll
    | req line target g' out Hreq Hline Hadv
    | req Hreq
    | req g' out Hreq Hcm
    | req Hreq
    | req id g' out Hreq Hid Hpress
    | result g' out Hconf ];
  [ | rewrite isSequenceErrorActive_run in Hpoll
    | rewrite advanceToPuzzle_run in Hadv;
      try rewrite completeMission_run in Hadv
    |
    | rewrite completeMission_run in Hcm
    |
    | apply registerButtonPress_inv in Hpress
    | rewrite confirmConduitsAligned_run in Hconf ].

Lemma latch_firings_app (a b : list SerialLine) :
  latch_firings (a ++ b) = (latch_firings a + latch_firings b)%nat.
Proof. unfold latch_firings. rewrite filter_app, length_app. reflexivity. Qed.

Lemma BUTTON_SEQUENCE_LENGTH_value : BUTTON_SEQUENCE_LENGTH = 15.
Proof. reflexivity. Qed.

Lemma served_index_in_bounds (now : Z) (g g' : Globals) (req : Request)
      (out : list SerialLine) :
  served now g req g' out -> index_in_bounds g -> index_in_bounds g'.
Proof.
  intros H [Hrange Hp3]. rewrite BUTTON_SEQUENCE_LENGTH_value in *.
  served_inv H.
  - split; assumption.
  - destruct (negb _); [|destruct (_ >=? 0)]; inversion Hpoll; subst;
      split; cbn; auto.
  - destruct g as [st i l cv e x]; cbn in *.
    destruct st, target; inversion Hadv; subst; split; cbn; auto;
      try discriminate; lia.
  - split; cbn; [lia|intros; discriminate].
  - inversion Hcm; subst. split; cbn; auto; discriminate.
  - split; assumption.
  - destruct Hpress as [(_ & -> & _) | (Hst & Hin & expected & Hnth & Hcases)];
      [split; assumption|].
    rewrite BUTTON_SEQUENCE_LENGTH_value in *. cbv zeta in Hcases.
    assert (Hsmall : Machine.to_unsigned (nextSequenceIndex g + 1)
                     = nextSequenceIndex g + 1).
    { apply MachineFacts.to_unsigned_small. unfold Machine.is_word,
        Machine.modulus, Machine.WORD_BITS. lia. }
    rewrite Hsmall in Hcases.
    destruct Hcases as [(_ & Hlt & -> & _) | [(_ & Hge & -> & _) | (_ & -> & _)]];
      split; cbn; auto; try discriminate; lia.
  - destruct g as [st i l cv e x]; cbn in *.
    destruct st; try destruct cv; inversion Hconf; subst; split; cbn; auto.
Qed.

Lemma served_conduits_gate (now : Z) (g g' : Globals) (req : Request)
      (out : list SerialLine) :
  served now g req g' out -> conduits_gate g -> conduits_gate g'.
Proof.
  unfold conduits_gate. intros H Hgate.
  served_inv H.
  - assumption.
  - destruct (negb _); [|destruct (_ >=? 0)]; inversion Hpoll; subst;
      cbn; auto.
  - destruct g as [st i l cv e x]; cbn in *.
    destruct st, target; inversion Hadv; subst; cbn; auto; discriminate.
  - cbn; discriminate.
  - inversion Hcm; subst. cbn; discriminate.
  - assumption.
  - destruct Hpress as [(_ & -> & _) | (Hst & Hin & expected & Hnth & Hcases)];
      [assumption|]. cbv zeta in Hcases.
    destruct Hcases as [(_ & _ & -> & _) | [(_ & _ & -> & _) | (_ & -> & _)]];
      cbn; discriminate.
  - destruct g as [st i l cv e x]; cbn in *.
    destruct st; try destruct cv; inversion Hconf; subst; cbn; auto;
      discriminate.
Qed.

(** Within a session the console shows the latch firing exactly when
    [latchTriggered] goes from false to true, and the flag never drops. *)
Lemma served_latch (now : Z) (g g' : Globals) (req : Request)
      (out : list SerialLine) :
  served now g req g' out ->
  is_remote_reset req = false ->
  (latch_firings out + bool_to_nat (latchTriggered g))%nat
  = bool_to_nat (latchTriggered g').
Proof.
  intros H Hsession.
  served_inv H.
  - reflexivity.
  - destruct (negb _); [|destruct (_ >=? 0)]; inversion Hpoll; subst;
      reflexivity.
  - destruct g as [st i l cv e x]; cbn in *.
    destruct Hline as [-> | ->];
      destruct st, target, l; inversion Hadv; subst; reflexivity.
  - congruence.
  - destruct (latchTriggered g); inversion Hcm; subst; reflexivity.
  - reflexivity.
  - destruct Hpress as [(_ & -> & ->) | (Hst & Hin & expected & Hnth & Hcases)];
      [reflexivity|]. cbv zeta in Hcases.
    destruct Hcases as [(_ & _ & -> & ->) | [(_ & _ & -> & ->) | (_ & -> & ->)]];
      destruct (latchTriggered g); reflexivity.
  - destruct g as [st i l cv e x]; cbn in *.
    destruct st; try destruct cv; destruct l; inversion Hconf; subst; reflexivity.
Qed.

(** A request whose console output carries a rejection line changed
    nothing. *)
Lemma served_rejected (now : Z) (g g' : Globals) (req : Request)
      (out : list SerialLine) :
  served now g req g' out -> rejected out = true -> g' = g.
Proof.
  intros H Hrej.
  served_inv H.
  - reflexivity.
  - discriminate.
  - destruct g as [st i l cv e x]; cbn in *.
    destruct Hline as [-> | ->];
      destruct st, target, l; inversion Hadv; subst;
      try reflexivity; discriminate.
  - discriminate.
  - destruct (latchTriggered g); inversion Hcm; subst; discriminate.
  - reflexivity.
  - destruct Hpress as [(_ & -> & ->) | (Hst & Hin & expected & Hnth & Hcases)];
      [reflexivity|]. cbv zeta in Hcases.
    destruct Hcases as [(_ & _ & -> & ->) | [(_ & _ & -> & ->) | (_ & -> & ->)]];
      try destruct (latchTriggered g); discriminate.
  - destruct g as [st i l cv e x]; cbn in *.
    destruct st; try destruct cv; inversion Hconf; subst;
      try reflexivity; discriminate.
Qed.

(** Only the conduit confirmation can raise [conduitsVerified]. *)
Lemma served_conduits_raised (now : Z) (g g' : Globals) (req : Request)
      (out : list SerialLine) :
  served now g req g' out ->
  conduitsVerified g = false -> conduitsVerified g' = true ->
  req = GET_confirm_conduits /\ currentState g = Puzzle2.
Proof.
  intros H Hoff Hon.
  served_inv H.
  - congruence.
  - destruct (negb _); [|destruct (_ >=? 0)]; inversion Hpoll; subst;
      cbn in *; congruence.
  - destruct g as [st i l cv e x]; cbn in *.
    destruct st, target; inversion Hadv; subst; cbn in *; congruence.
  - discriminate.
  - inversion Hcm; subst. cbn in *; congruence.
  - congruence.
  - destruct Hpress as [(_ & -> & _) | (Hst & Hin & expected & Hnth & Hcases)];
      [congruence|]. cbv zeta in Hcases.
    destruct Hcases as [(_ & _ & -> & _) | [(_ & _ & -> & _) | (_ & -> & _)]];
      cbn in *; congruence.
  - destruct g as [st i l cv e x]; cbn in *.
    destruct st; try destruct cv; inversion Hconf; subst; cbn in *;
      try congruence; auto.
Qed.

Lemma reachable_index_in_bounds (g : Globals) :
  reachable g -> index_in_bounds g.
Proof.
  induction 1 as [|g g' now req resp out Hreach IH Hnow Hserve].
  - split; cbn; [lia|discriminate].
  - eapply served_index_in_bounds; eauto using handleClient_served.
Qed.

Lemma reachable_conduits_gate (g : Globals) :
  reachable g -> conduits_gate g.
Proof.
  induction 1 as [|g g' now req resp out Hreach IH Hnow Hserve].
  - intros Hcv; discriminate.
  - eapply served_conduits_gate; eauto using handleClient_served.
Qed.

Lemma served_enters_puzzle2 (now : Z) (g g' : Globals) (req : Request)
      (out : list SerialLine) :
  served now g req g' out ->
  currentState g <> Puzzle2 -> currentState g' = Puzzle2 ->
  currentState g = Puzzle1 /\ conduitsVerified g' = false.
Proof.
  intros H Hout Hin.
  served_inv H.
  - congruence.
  - destruct (negb _); [|destruct (_ >=? 0)]; inversion Hpoll; subst;
      cbn in *; congruence.
  - destruct g as [st i l cv e x]; cbn in *.
    destruct st, target; inversion Hadv; subst; cbn in *;
      try congruence; auto.
  - discriminate.
  - inversion Hcm; subst. discriminate.
  - congruence.
  - destruct Hpress as [(_ & -> & _) | (Hst & Hin' & expected & Hnth & Hcases)];
      [congruence|]. cbv zeta in Hcases.
    destruct Hcases as [(_ & _ & -> & _) | [(_ & _ & -> & _) | (_ & -> & _)]];
      discriminate.
  - destruct g as [st i l cv e x]; cbn in *.
    destruct st; try destruct cv; inversion Hconf; subst; cbn in *;
      congruence.
Qed.

(** The pattern has an entry at every index below its length. *)
Lemma BUTTON_SEQUENCE_defined (i : Z) :
  0 <= i < BUTTON_SEQUENCE_LENGTH ->
  exists expected,
    nth_error BUTTON_SEQUENCE (Z.to_nat i) = Some expected /\ 1 <= expected <= 5.
Proof.
  rewrite BUTTON_SEQUENCE_LENGTH_value. intros Hi.
  assert (Hcases : i = 0 \/ i = 1 \/ i = 2 \/ i = 3 \/ i = 4 \/ i = 5 \/ i = 6 \/
                   i = 7 \/ i = 8 \/ i = 9 \/ i = 10 \/ i = 11 \/ i = 12 \/
                   i = 13 \/ i = 14) by lia.
  repeat (destruct Hcases as [-> | Hcases];
          [eexists; split; [reflexivity | lia] | ]).
  subst i. eexists; split; [reflexivity | lia].
Qed.

Lemma registerButtonPress_returns (buttonId now : Z) (g : Globals) :
  index_in_bounds g ->
  exists g' out, registerButtonPress buttonId now g = Returns tt g' out.
Proof.
  intros [Hrange Hp3].
  assert (Hst : currentState g = Puzzle3 \/ currentState g <> Puzzle3)
    by (destruct (currentState g); auto; right; discriminate).
  destruct Hst as [Hst|Hst].
  - destruct (BUTTON_SEQUENCE_defined (nextSequenceIndex g)) as (expected & Hnth & _);
      [split; [lia | auto]|].
    destruct (Z.eq_dec buttonId expected) as [->|Hne].
    + rewrite (registerButtonPress_match now g expected) by (auto; lia).
      cbv zeta. destruct (_ >=? _); eauto.
    + rewrite (registerButtonPress_mismatch now buttonId g expected)
        by (auto; lia). eauto.
  - rewrite registerButtonPress_outside by assumption. eauto.
Qed.

Lemma storyTextForState_returns (now : Z) (g : Globals) :
  index_in_bounds g ->
  exists story g' out, storyTextForState now g = Returns story g' out.
Proof.
  intros [Hrange Hp3].
  destruct g as [st i l cv e x]; cbn in *.
  destruct st; try (cbn; eauto; fail).
  - destruct cv; cbn; eauto.
  - specialize (Hp3 eq_refl).
    destruct (BUTTON_SEQUENCE_defined i) as (expected & Hnth & _);
      [rewrite BUTTON_SEQUENCE_LENGTH_value; lia|].
    unfold storyTextForState, buildSequenceStatusHtml, array_at.
    unfold_monad. cbn [currentState nextSequenceIndex].
    rewrite BUTTON_SEQUENCE_LENGTH_value.
    destruct (Z.ltb_spec i 15); [|lia].
    destruct (Z.ltb_spec i 0); [lia|]. rewrite Hnth.
    match goal with
    | |- context [isSequenceErrorActive now ?s] =>
        rewrite (isSequenceErrorActive_run now s)
    end.
    destruct (negb _); [|destruct (_ >=? 0)]; eauto.
Qed.

Lemma handleClient_returns (req : Request) (now : Z) (g : Globals) :
  index_in_bounds g ->
  exists resp g' out, handleClient req now g = Returns resp g' out.
Proof.
  intros Hinv.
  destruct req as [ | | | [btn|] | [value|] | | ]; cbn [handleClient].
  - destruct (storyTextForState_returns now g Hinv) as (s & g1 & o1 & Hs).
    unfold handleRoot, bind. rewrite Hs. cbn. eauto.
  - destruct (storyTextForState_returns now g Hinv) as (s & g1 & o1 & Hs).
    unfold handleDcdFragment, bind. rewrite Hs. cbn. eauto.
  - do 3 eexists; reflexivity.
  - unfold handleRemoteEndpoint.
    destruct (handleRemoteButton_cases btn)
      as [[Hr ->]|[[Hr ->]|[[Hr ->]|[[Hr ->]|[Hr ->]]]]];
      unfold bind, Serial_println, ret;
      try rewrite advanceToPuzzle_run; try rewrite completeMission_run;
      try rewrite resetGame_run; eauto.
    + destruct g as [[] i [|] cv e x]; cbn; eauto.
    + destruct g as [[] i [|] cv e x]; cbn; eauto.
  - do 3 eexists; reflexivity.
  - unfold handlePuzzleButtonEndpoint.
    destruct (_ || _); [do 3 eexists; reflexivity|].
    destruct (registerButtonPress_returns (value mod 256) now g Hinv)
      as (g1 & o1 & Hp).
    unfold bind. rewrite Hp. cbn. eauto.
  - do 3 eexists; reflexivity.
  - unfold handleConfirmConduitsEndpoint, bind.
    rewrite confirmConduitsAligned_run.
    destruct g as [[] i l [|] e x]; cbn; eauto.
  - do 3 eexists; reflexivity.
Qed.

Lemma handleClient_error_status (req : Request) (now : Z) (g : Globals)
      (resp : Response) (g' : Globals) (out : list SerialLine) :
  handleClient req now g = Returns resp g' out ->
  status resp <> 200 -> g' = g /\ out = [].
Proof.
  destruct req as [ | | | [btn|] | [value|] | | ]; cbn [handleClient].
  - unfold handleRoot, bind.
    destruct (storyTextForState now g); [|discriminate].
    cbn. intros H; inversion H; subst. cbn. congruence.
  - unfold handleDcdFragment, bind.
    destruct (storyTextForState now g); [|discriminate].
    cbn. intros H; inversion H; subst. cbn. congruence.
  - cbn. intros H; inversion H; subst. cbn. congruence.
  - unfold handleRemoteEndpoint, bind.
    destruct (handleRemoteButton btn now g); [|discriminate].
    cbn. intros H; inversion H; subst. cbn. congruence.
  - cbn. intros H; inversion H; subst. auto.
  - unfold handlePuzzleButtonEndpoint.
    destruct (_ || _); [cbn; intros H; inversion H; subst; auto|].
    unfold bind.
    destruct (registerButtonPress (value mod 256) now g); [|discriminate].
    cbn. intros H; inversion H; subst. cbn. congruence.
  - cbn. intros H; inversion H; subst. auto.
  - unfold handleConfirmConduitsEndpoint, bind.
    destruct (confirmConduitsAligned now g) as [[] ? ?|]; [| | |discriminate];
      cbn; intros H; inversion H; subst; cbn; congruence.
  - cbn. intros H; inversion H; subst. auto.
Qed.

(** Over a whole session the latch fires as often as [latchTriggered] is
    raised: at most once. *)
Lemma serve_latch (reqs : list (Z * Request)) :
  forall (g g' : Globals) (out : list SerialLine),
    serve reqs g = Some (g', out) ->
    forallb (fun r => negb (is_remote_reset (snd r))) reqs = true ->
    (latch_firings out + bool_to_nat (latchTriggered g))%nat
    = bool_to_nat (latchTriggered g').
Proof.
  induction reqs as [|[now req] rest IH]; intros g g' out Hserve Hsession.
  - cbn in Hserve. inversion Hserve; subst. reflexivity.
  - cbn in Hserve, Hsession. apply andb_prop in Hsession as [Hreq Hrest].
    destruct (handleClient req now g) as [resp g1 out1|] eqn:Hstep;
      [|discriminate].
    destruct (serve rest g1) as [[g2 out2]|] eqn:Htail; [|discriminate].
    inversion Hserve; subst.
    specialize (IH _ _ _ Htail Hrest).
    apply handleClient_served in Hstep.
    apply served_latch in Hstep;
      [|destruct (is_remote_reset req); [discriminate|reflexivity]].
    rewrite latch_firings_app. lia.
Qed.

(** A served list of requests starting in a reachable state ends in one. *)
Lemma serve_reachable (reqs : list (Z * Request)) :
  forall (g g' : Globals) (out : list SerialLine),
    reachable g ->
    Forall (fun r => Machine.is_word (fst r)) reqs ->
    serve reqs g = Some (g', out) ->
    reachable g'.
Proof.
  induction reqs as [|[now req] rest IH]; intros g g' out Hg Hclock Hserve.
  - cbn in Hserve. inversion Hserve; subst. assumption.
  - cbn in Hserve. inversion Hclock as [|? ? Hnow Hrest]; subst.
    destruct (handleClient req now g) as [resp g1 out1|] eqn:Hstep;
      [|discriminate].
    destruct (serve rest g1) as [[g2 out2]|] eqn:Htail; [|discriminate].
    inversion Hserve; subst.
    apply (IH g1 g' out2); [|assumption|assumption].
    apply (reachable_request g g1 now req resp out1); assumption.
Qed.

(** * The behavioural specification *)

(** ** Mission complete and the sequence progress *)

(** C1, as amended: whenever mission-complete fires -- called directly,
    forced with remote button D, or triggered by the final correct button --
    the stage becomes MissionComplete and the sequence error is cleared (no
    flag, no expiry), while [nextSequenceIndex] is left as it is: it is not
    reset to 0, and it is 15 after the final correct submission. *)
Theorem completeMission_clears_error_keeps_index :
  (forall (now : Z) (g : Globals),
      exists g' out,
        completeMission now g = Returns tt g' out /\
        currentState g' = MissionComplete /\
        sequenceError g' = false /\ sequenceErrorExpiresAt g' = 0 /\
        nextSequenceIndex g' = nextSequenceIndex g) /\
  (forall (now : Z) (g : Globals),
      exists resp g' out,
        handleClient (GET_remote (Some "D"%char)) now g = Returns resp g' out /\
        currentState g' = MissionComplete /\
        sequenceError g' = false /\ sequenceErrorExpiresAt g' = 0 /\
        nextSequenceIndex g' = nextSequenceIndex g) /\
  (forall (now : Z) (latch verified flagged : bool) (expires : Z),
      exists g' out,
        registerButtonPress 1 now
          (mkGlobals Puzzle3 14 latch verified flagged expires)
        = Returns tt g' out /\
        currentState g' = MissionComplete /\
        sequenceError g' = false /\ sequenceErrorExpiresAt g' = 0 /\
        nextSequenceIndex g' = 15).
Proof.
  split; [|split].
  - intros now g. rewrite completeMission_run.
    do 2 eexists. split; [reflexivity|]. cbn. auto.
  - intros now g. destruct g as [st i [|] cv e x];
      do 3 eexists; (split; [reflexivity|]); cbn; auto.
  - intros now [|] cv e x; do 2 eexists; (split; [reflexivity|]); cbn; auto.
Qed.

(** C1, the claim as written fails: after A, B and one correct press the
    game is in Puzzle3 with index 1, and [completeMission] from there leaves
    the index at 1; after the whole pattern the index is 15. *)
Lemma completeMission_index_counterexample :
  serve [(0, GET_remote (Some "A"%char)); (10, GET_remote (Some "B"%char));
         (20, GET_puzzle_button (Some 4))] boot
  = Some (mkGlobals Puzzle3 1 false false false 0,
          [Remote_A; Game_advanced_2; Remote_B; Game_advanced_3;
           Buttons_received 4; Buttons_progress 1 15]) /\
  completeMission 30 (mkGlobals Puzzle3 1 false false false 0)
  = Returns tt (mkGlobals MissionComplete 1 true false false 0)
            [Latch_released; Game_mission_complete] /\
  nextSequenceIndex (mkGlobals MissionComplete 1 true false false 0) <> 0 /\
  final_globals
    (press_all (fun _ => 0) 0 BUTTON_SEQUENCE
               (mkGlobals Puzzle3 0 false false false 0))
  = Some (mkGlobals MissionComplete 15 true false false 0).
Proof.
  repeat split; try reflexivity. cbn. discriminate.
Qed.

(** ** Stage transitions *)

(** C2: [advanceToPuzzle] applies exactly the three legal pairs.
    (Puzzle1, Puzzle2) enters Puzzle2 with the conduit gate and the sequence
    error cleared; (Puzzle2, Puzzle3) enters Puzzle3 with the index at 0 and
    the error cleared, whatever [conduitsVerified] is (it is kept);
    (Puzzle3, MissionComplete) is [completeMission]; every other pair, and
    every target once the stage is MissionComplete, is refused on the
    console and leaves the globals as they were. *)
Theorem advanceToPuzzle_transitions (now : Z) (g : Globals) (target : GameState) :
  (currentState g = Puzzle1 -> target = Puzzle2 ->
   advanceToPuzzle target now g =
   Returns tt (mkGlobals Puzzle2 (nextSequenceIndex g) (latchTriggered g)
                         false false 0) [Game_advanced_2]) /\
  (currentState g = Puzzle2 -> target = Puzzle3 ->
   advanceToPuzzle target now g =
   Returns tt (mkGlobals Puzzle3 0 (latchTriggered g) (conduitsVerified g)
                         false 0) [Game_advanced_3]) /\
  (currentState g = Puzzle3 -> target = MissionComplete ->
   advanceToPuzzle target now g = completeMission now g) /\
  (~ (currentState g = Puzzle1 /\ target = Puzzle2) ->
   ~ (currentState g = Puzzle2 /\ target = Puzzle3) ->
   ~ (currentState g = Puzzle3 /\ target = MissionComplete) ->
   exists line,
     advanceToPuzzle target now g = Returns tt g [line] /\
     SerialLine_is_rejection line = true) /\
  (currentState g = MissionComplete ->
   advanceToPuzzle target now g = Returns tt g [Game_already_complete]).
Proof.
  rewrite advanceToPuzzle_run.
  repeat split.
  - intros -> ->. reflexivity.
  - intros -> ->. reflexivity.
  - intros -> ->. reflexivity.
  - intros H12 H23 H3c.
    destruct (currentState g), target;
      try (eexists; split; reflexivity);
      exfalso; auto.
  - intros ->. reflexivity.
Qed.

Lemma advanceToPuzzle_transitions_witness :
  advanceToPuzzle Puzzle2 100 boot
  = Returns tt (mkGlobals Puzzle2 0 false false false 0) [Game_advanced_2] /\
  advanceToPuzzle Puzzle3 100 (mkGlobals Puzzle2 7 false false true 900)
  = Returns tt (mkGlobals Puzzle3 0 false false false 0) [Game_advanced_3] /\
  advanceToPuzzle MissionComplete 100 (mkGlobals Puzzle3 3 false true false 0)
  = completeMission 100 (mkGlobals Puzzle3 3 false true false 0) /\
  (exists line,
      advanceToPuzzle Puzzle3 100 boot = Returns tt boot [line] /\
      SerialLine_is_rejection line = true) /\
  advanceToPuzzle Puzzle1 100 (mkGlobals MissionComplete 15 true true false 0)
  = Returns tt (mkGlobals MissionComplete 15 true true false 0)
            [Game_already_complete].
Proof.
  split; [|split; [|split; [|split]]].
  - apply (proj1 (advanceToPuzzle_transitions 100 boot Puzzle2));
      reflexivity.
  - apply (proj1 (proj2 (advanceToPuzzle_transitions
                           100 (mkGlobals Puzzle2 7 false false true 900)
                           Puzzle3))); reflexivity.
  - apply (proj1 (proj2 (proj2 (advanceToPuzzle_transitions
                           100 (mkGlobals Puzzle3 3 false true false 0)
                           MissionComplete)))); reflexivity.
  - apply (proj1 (proj2 (proj2 (proj2 (advanceToPuzzle_transitions
                           100 boot Puzzle3)))));
      cbn; intros [H1 H2]; discriminate.
  - apply (proj2 (proj2 (proj2 (proj2 (advanceToPuzzle_transitions
             100 (mkGlobals MissionComplete 15 true true false 0) Puzzle1)))));
      reflexivity.
Defined.

(** ** The button sequence *)

(** C3: from Puzzle3 with the index at 0, pressing
    4,1,5,1,3,5,4,2,1,3,2,4,5,3,1 one at a time moves the index through
    0, 1, ..., 15.  Every correct press clears the sequence error and adds
    exactly one to the index; the game stays in Puzzle3 until the 15th
    press, which also runs [completeMission]: the stage is MissionComplete,
    the console reports progress 15/15 and mission complete. *)
Theorem full_pattern_completes_mission (clock : nat -> Z) (g : Globals) :
  currentState g = Puzzle3 ->
  nextSequenceIndex g = 0 ->
  BUTTON_SEQUENCE = [4; 1; 5; 1; 3; 5; 4; 2; 1; 3; 2; 4; 5; 3; 1] /\
  (forall k : nat,
      (k <= 15)%nat ->
      final_globals (press_all clock 0 (firstn k BUTTON_SEQUENCE) g)
      = Some (mkGlobals
                (if (k <? 15)%nat then Puzzle3 else MissionComplete)
                (Z.of_nat k)
                (if (k <? 15)%nat then latchTriggered g else true)
                (conduitsVerified g)
                (if (k =? 0)%nat then sequenceError g else false)
                (if (k =? 0)%nat then sequenceErrorExpiresAt g else 0)) /\
      (In Game_mission_complete
          (serial_of (press_all clock 0 (firstn k BUTTON_SEQUENCE) g))
       <-> k = 15%nat)) /\
  press_all clock 0 BUTTON_SEQUENCE g
  = Returns tt
      (mkGlobals MissionComplete 15 true (conduitsVerified g) false 0)
      (pattern_console 0 BUTTON_SEQUENCE ++
       (if latchTriggered g then [Game_mission_complete]
        else [Latch_released; Game_mission_complete])) /\
  (forall (now : Z) (s : Globals) (expected : Z),
      currentState s = Puzzle3 ->
      0 <= nextSequenceIndex s ->
      nth_error BUTTON_SEQUENCE (Z.to_nat (nextSequenceIndex s)) = Some expected ->
      exists s' out,
        registerButtonPress expected now s = Returns tt s' out /\
        nextSequenceIndex s' = nextSequenceIndex s + 1 /\
        sequenceError s' = false /\ sequenceErrorExpiresAt s' = 0 /\
        (nextSequenceIndex s' < 15 ->
         currentState s' = Puzzle3 /\ ~ In Game_mission_complete out) /\
        (nextSequenceIndex s' = 15 ->
         currentState s' = MissionComplete /\ In Game_mission_complete out)).
Proof.
  intros Hst Hidx. split; [reflexivity|]. split; [|split].
  - destruct g as [st i l cv e x]; cbn in Hst, Hidx; subst st i.
    intros k Hk.
    do 15 (destruct k as [|k];
           [split; [vm_compute; reflexivity|];
            vm_compute; split; [intuition discriminate | discriminate]|]).
    destruct k as [|k]; [|lia].
    destruct l; (split; [vm_compute; reflexivity|]);
      vm_compute; (split; [reflexivity|]); intros _;
      repeat (first [left; reflexivity | right]).
  - destruct g as [st i l cv e x]; cbn in Hst, Hidx; subst st i.
    destruct l; vm_compute; reflexivity.
  - intros now s expected Hs Hpos Hnth.
    assert (Hlt : nextSequenceIndex s < 15).
    { assert (Hsome : nth_error BUTTON_SEQUENCE (Z.to_nat (nextSequenceIndex s))
                      <> None) by congruence.
      apply nth_error_Some in Hsome. cbn in Hsome. lia. }
    rewrite (registerButtonPress_match now s expected) by assumption.
    cbv zeta. rewrite BUTTON_SEQUENCE_LENGTH_value.
    rewrite MachineFacts.to_unsigned_small
      by (unfold Machine.is_word, Machine.modulus, Machine.WORD_BITS; lia).
    destruct (Z.geb_spec (nextSequenceIndex s + 1) 15) as [Hge|Hlt'].
    + do 2 eexists. split; [reflexivity|]. cbn [nextSequenceIndex
        sequenceError sequenceErrorExpiresAt currentState].
      repeat split; auto; try lia.
      destruct (latchTriggered s); cbn; auto.
    + do 2 eexists. split; [reflexivity|]. cbn [nextSequenceIndex
        sequenceError sequenceErrorExpiresAt currentState].
      repeat split; auto; try lia.
      cbn. intros [Hin|[Hin|[]]]; discriminate.
Qed.

Lemma full_pattern_completes_mission_witness :
  press_all (fun k => 1000 * Z.of_nat k) 0 BUTTON_SEQUENCE
            (mkGlobals Puzzle3 0 false true true 42)
  = Returns tt (mkGlobals MissionComplete 15 true true false 0)
            (pattern_console 0 BUTTON_SEQUENCE
             ++ [Latch_released; Game_mission_complete]).
Proof.
  exact (proj1 (proj2 (proj2
           (full_pattern_completes_mission
              (fun k => 1000 * Z.of_nat k)
              (mkGlobals Puzzle3 0 false true true 42) eq_refl eq_refl)))).
Defined.

(** ** The timed sequence error *)

(** C4, as amended: in Puzzle3 a press that differs from the expected
    identifier resets the index to 0 and raises the error flag with expiry
    (now + 2500) mod 2^32.  Clock readings are compared modulo 2^32 by a
    signed difference: a query made less than 2500 ms after the mismatch
    returns true and changes nothing; the first query made at least 2500 ms
    and less than 2500 + 2^31 ms after it clears the flag and the expiry and
    returns false; once cleared, every query returns false and changes
    nothing.  In general the answer is the sign of the 32-bit signed
    difference between the clock reading and the expiry. *)
Theorem sequence_error_flash_window
        (now buttonId expected : Z) (g : Globals) :
  currentState g = Puzzle3 ->
  0 <= nextSequenceIndex g ->
  nth_error BUTTON_SEQUENCE (Z.to_nat (nextSequenceIndex g)) = Some expected ->
  buttonId <> expected ->
  let expiry := Machine.to_unsigned (now + SEQUENCE_ERROR_FLASH_MS) in
  let flagged :=
    mkGlobals Puzzle3 0 (latchTriggered g) (conduitsVerified g) true expiry in
  let cleared :=
    mkGlobals Puzzle3 0 (latchTriggered g) (conduitsVerified g) false 0 in
  registerButtonPress buttonId now g
  = Returns tt flagged [Buttons_received buttonId; Buttons_incorrect expected] /\
  (forall elapsed : Z,
      0 <= elapsed < SEQUENCE_ERROR_FLASH_MS ->
      isSequenceErrorActive (Machine.to_unsigned (now + elapsed)) flagged
      = Returns true flagged []) /\
  (forall elapsed : Z,
      SEQUENCE_ERROR_FLASH_MS <= elapsed
        < SEQUENCE_ERROR_FLASH_MS + Machine.half_modulus ->
      isSequenceErrorActive (Machine.to_unsigned (now + elapsed)) flagged
      = Returns false cleared []) /\
  (forall t : Z, isSequenceErrorActive t cleared = Returns false cleared []) /\
  (forall t : Z,
      isSequenceErrorActive t flagged
      = if Machine.to_signed (Machine.to_unsigned (t - expiry)) <? 0
        then Returns true flagged []
        else Returns false cleared []).
Proof.
  intros Hst Hpos Hnth Hne expiry flagged cleared.
  split; [|split; [|split; [|split]]].
  - apply registerButtonPress_mismatch; assumption.
  - intros elapsed Helapsed.
    rewrite isSequenceErrorActive_run. cbn [sequenceError negb sequenceErrorExpiresAt flagged].
    unfold expiry. rewrite MachineFacts.signed_distance.
    pose proof (MachineFacts.to_signed_before elapsed Helapsed) as Hneg.
    destruct (Z.geb_spec (Machine.to_signed (elapsed - SEQUENCE_ERROR_FLASH_MS)) 0);
      [lia|reflexivity].
  - intros elapsed Helapsed.
    rewrite isSequenceErrorActive_run. cbn [sequenceError negb sequenceErrorExpiresAt flagged].
    unfold expiry. rewrite MachineFacts.signed_distance.
    pose proof (MachineFacts.to_signed_after elapsed Helapsed) as Hnonneg.
    destruct (Z.geb_spec (Machine.to_signed (elapsed - SEQUENCE_ERROR_FLASH_MS)) 0);
      [reflexivity|lia].
  - intros t. reflexivity.
  - intros t. rewrite isSequenceErrorActive_run.
    cbn [sequenceError negb sequenceErrorExpiresAt flagged].
    destruct (Z.geb_spec (Machine.to_signed (Machine.to_unsigned (t - expiry))) 0);
      destruct (Z.ltb_spec (Machine.to_signed (Machine.to_unsigned (t - expiry))) 0);
      try lia; reflexivity.
Qed.

Lemma sequence_error_flash_window_witness :
  registerButtonPress 1 1000 (mkGlobals Puzzle3 0 false false false 0)
  = Returns tt (mkGlobals Puzzle3 0 false false true 3500)
            [Buttons_received 1; Buttons_incorrect 4] /\
  isSequenceErrorActive 3499 (mkGlobals Puzzle3 0 false false true 3500)
  = Returns true (mkGlobals Puzzle3 0 false false true 3500) [] /\
  isSequenceErrorActive 3500 (mkGlobals Puzzle3 0 false false true 3500)
  = Returns false (mkGlobals Puzzle3 0 false false false 0) [].
Proof.
  assert (Hne : 1 <> 4) by discriminate.
  assert (Hpos : 0 <= nextSequenceIndex (mkGlobals Puzzle3 0 false false false 0))
    by (cbn; lia).
  destruct (sequence_error_flash_window
              1000 1 4 (mkGlobals Puzzle3 0 false false false 0)
              eq_refl Hpos eq_refl Hne)
    as (Hpress & Hbefore & Hafter & _).
  split; [exact Hpress|]. split.
  - apply (Hbefore 2499). unfold SEQUENCE_ERROR_FLASH_MS. lia.
  - apply (Hafter 2500). unfold SEQUENCE_ERROR_FLASH_MS, Machine.half_modulus,
      Machine.WORD_BITS. cbn. lia.
Defined.

(** C4, the claim as written fails for a late query: a mismatch at clock
    reading 1000 sets the expiry 3500, and a query at reading 2147487148
    (2^31 ms past the expiry) still returns true and clears nothing. *)
Lemma sequence_error_late_query_counterexample :
  registerButtonPress 1 1000 (mkGlobals Puzzle3 0 false false false 0)
  = Returns tt (mkGlobals Puzzle3 0 false false true 3500)
            [Buttons_received 1; Buttons_incorrect 4] /\
  Machine.is_word 2147487148 /\
  3500 <= 2147487148 /\
  isSequenceErrorActive 2147487148 (mkGlobals Puzzle3 0 false false true 3500)
  = Returns true (mkGlobals Puzzle3 0 false false true 3500) [].
Proof.
  split; [reflexivity|]. split; [|split; [lia|reflexivity]].
  unfold Machine.is_word, Machine.modulus, Machine.WORD_BITS. cbn. lia.
Qed.

(** ** The latch *)

(** C5: [completeMission] fires the latch at most once per session.  With
    [latchTriggered] false (the first call of a session, from any stage) it
    sets the flag and prints the latch line; with the flag already set it
    prints no latch line and keeps the flag, and in both cases it forces
    MissionComplete and clears the sequence error.  Calling it twice gives
    the globals of calling it once, with one firing over both calls; and
    over any served requests without a reset the latch fires at most once,
    and not at all when the flag was already set. *)
Theorem completeMission_latch_once :
  (forall (now : Z) (g : Globals),
      latchTriggered g = false ->
      completeMission now g
      = Returns tt (mkGlobals MissionComplete (nextSequenceIndex g) true
                              (conduitsVerified g) false 0)
                [Latch_released; Game_mission_complete]) /\
  (forall (now : Z) (g : Globals),
      latchTriggered g = true ->
      completeMission now g
      = Returns tt (mkGlobals MissionComplete (nextSequenceIndex g) true
                              (conduitsVerified g) false 0)
                [Game_mission_complete]) /\
  (forall (now1 now2 : Z) (g : Globals),
      exists g1 out1 out2,
        completeMission now1 g = Returns tt g1 out1 /\
        completeMission now2 g1 = Returns tt g1 out2 /\
        latch_firings out2 = 0%nat /\
        latch_firings (out1 ++ out2)
        = (if latchTriggered g then 0%nat else 1%nat)) /\
  (forall (reqs : list (Z * Request)) (g g' : Globals) (out : list SerialLine),
      forallb (fun r => negb (is_remote_reset (snd r))) reqs = true ->
      serve reqs g = Some (g', out) ->
      (latch_firings out <= 1)%nat /\
      (latchTriggered g = true ->
       latch_firings out = 0%nat /\ latchTriggered g' = true) /\
      (latch_firings out = 1%nat -> latchTriggered g' = true)).
Proof.
  split; [|split; [|split]].
  - intros now g Hl. rewrite completeMission_run, Hl. reflexivity.
  - intros now g Hl. rewrite completeMission_run, Hl. reflexivity.
  - intros now1 now2 g. rewrite completeMission_run.
    do 3 eexists. split; [reflexivity|].
    rewrite completeMission_run. cbn [nextSequenceIndex conduitsVerified
      latchTriggered].
    split; [reflexivity|]. split; [reflexivity|].
    destruct (latchTriggered g); reflexivity.
  - intros reqs g g' out Hsession Hserve.
    pose proof (serve_latch reqs g g' out Hserve Hsession) as Hcount.
    unfold bool_to_nat in Hcount.
    destruct (latchTriggered g), (latchTriggered g');
      repeat split; try lia; try discriminate; auto.
Qed.

Lemma completeMission_latch_once_witness :
  completeMission 5 boot
  = Returns tt (mkGlobals MissionComplete 0 true false false 0)
            [Latch_released; Game_mission_complete] /\
  completeMission 6 (mkGlobals MissionComplete 0 true false false 0)
  = Returns tt (mkGlobals MissionComplete 0 true false false 0)
            [Game_mission_complete] /\
  (latch_firings
     [Remote_D; Latch_released; Game_mission_complete;
      Remote_D; Game_mission_complete] <= 1)%nat.
Proof.
  destruct completeMission_latch_once as (Hfirst & Hlater & _ & Hsession).
  split; [apply (Hfirst 5 boot); reflexivity|].
  split; [apply (Hlater 6 (mkGlobals MissionComplete 0 true false false 0));
          reflexivity|].
  apply (Hsession [(5, GET_remote (Some "D"%char));
                   (6, GET_remote (Some "d"%char))]
                  boot (mkGlobals MissionComplete 0 true false false 0));
    reflexivity.
Defined.

(** ** Reset *)

(** C6: [resetGame], from any state (so from every reachable one), and the
    remote button C that calls it, return the game to Puzzle1 with
    [conduitsVerified] false, the index at 0, no sequence error (flag false,
    expiry 0, and the error query answers false) and [latchTriggered]
    false. *)
Theorem resetGame_restores_start :
  (forall (now : Z) (g : Globals),
      exists g' out,
        resetGame now g = Returns tt g' out /\
        currentState g' = Puzzle1 /\
        conduitsVerified g' = false /\
        nextSequenceIndex g' = 0 /\
        sequenceError g' = false /\ sequenceErrorExpiresAt g' = 0 /\
        latchTriggered g' = false /\
        (forall t : Z, isSequenceErrorActive t g' = Returns false g' [])) /\
  (forall (now : Z) (g : Globals),
      handleClient (GET_remote (Some "C"%char)) now g
      = Returns (mkResponse 200 (Text_remote_accepted "C"%char)) boot
                [Remote_C; Game_reset]) /\
  boot = mkGlobals Puzzle1 0 false false false 0.
Proof.
  split; [|split].
  - intros now g. rewrite resetGame_run.
    do 2 eexists. split; [reflexivity|]. cbn. repeat split.
  - reflexivity.
  - reflexivity.
Qed.

(** ** The conduit gate *)

(** C7: [confirmConduitsAligned] answers WrongState and changes nothing
    outside Puzzle2; answers AlreadyConfirmed and changes nothing in Puzzle2
    when [conduitsVerified] is already true; otherwise it sets
    [conduitsVerified] and answers Accepted.  Two calls in a row in Puzzle2
    give Accepted then AlreadyConfirmed with the flag true after both.  No
    other operation and no other request raises [conduitsVerified]. *)
Theorem confirmConduitsAligned_only_setter :
  (forall (now : Z) (g : Globals),
      currentState g <> Puzzle2 ->
      confirmConduitsAligned now g = Returns WrongState g [Conduits_ignored]) /\
  (forall (now : Z) (g : Globals),
      currentState g = Puzzle2 -> conduitsVerified g = true ->
      confirmConduitsAligned now g
      = Returns AlreadyConfirmed g [Conduits_already]) /\
  (forall (now : Z) (g : Globals),
      currentState g = Puzzle2 -> conduitsVerified g = false ->
      confirmConduitsAligned now g
      = Returns Accepted (set_conduitsVerified true g) [Conduits_confirmed]) /\
  (forall (now1 now2 : Z) (g : Globals),
      currentState g = Puzzle2 -> conduitsVerified g = false ->
      exists g1,
        confirmConduitsAligned now1 g
        = Returns Accepted g1 [Conduits_confirmed] /\
        conduitsVerified g1 = true /\
        confirmConduitsAligned now2 g1
        = Returns AlreadyConfirmed g1 [Conduits_already]) /\
  (forall (req : Request) (now : Z) (g g' : Globals) (resp : Response)
          (out : list SerialLine),
      handleClient req now g = Returns resp g' out ->
      conduitsVerified g = false -> conduitsVerified g' = true ->
      req = GET_confirm_conduits /\ currentState g = Puzzle2) /\
  (forall (now : Z) (g g' : Globals) (out : list SerialLine),
      conduitsVerified g = false ->
      (forall target, advanceToPuzzle target now g = Returns tt g' out ->
                      conduitsVerified g' = false) /\
      (resetGame now g = Returns tt g' out -> conduitsVerified g' = false) /\
      (completeMission now g = Returns tt g' out ->
       conduitsVerified g' = false) /\
      (forall id, registerButtonPress id now g = Returns tt g' out ->
                  conduitsVerified g' = false) /\
      (forall alert, isSequenceErrorActive now g = Returns alert g' out ->
                     conduitsVerified g' = false)).
Proof.
  split; [|split; [|split; [|split; [|split]]]].
  - intros now g Hst. rewrite confirmConduitsAligned_run.
    destruct (currentState g); congruence.
  - intros now g Hst Hcv. rewrite confirmConduitsAligned_run, Hst, Hcv.
    reflexivity.
  - intros now g Hst Hcv. rewrite confirmConduitsAligned_run, Hst, Hcv.
    reflexivity.
  - intros now1 now2 g Hst Hcv.
    exists (set_conduitsVerified true g).
    rewrite !confirmConduitsAligned_run. cbn [currentState conduitsVerified
      set_conduitsVerified]. rewrite Hst, Hcv. auto.
  - intros req now g g' resp out Hserve.
    apply handleClient_served in Hserve.
    apply served_conduits_raised with (1 := Hserve).
  - intros now g g' out Hcv. repeat split.
    + intros target. rewrite advanceToPuzzle_run.
      destruct g as [st i [|] cv e x]; cbn in *;
        destruct st, target; intros H; inversion H; subst; cbn; auto.
    + rewrite resetGame_run. intros H; inversion H; subst. reflexivity.
    + rewrite completeMission_run. intros H; inversion H; subst. assumption.
    + intros id Hpress. apply registerButtonPress_inv in Hpress.
      destruct Hpress as [(_ & -> & _) | (_ & _ & expected & _ & Hcases)];
        [assumption|]. cbv zeta in Hcases.
      destruct Hcases as [(_ & _ & -> & _) | [(_ & _ & -> & _) | (_ & -> & _)]];
        assumption.
    + intros alert. rewrite isSequenceErrorActive_run.
      destruct (negb _); [|destruct (_ >=? 0)]; intros H; inversion H; subst;
        assumption.
Qed.

Lemma confirmConduitsAligned_only_setter_witness :
  confirmConduitsAligned 0 boot = Returns WrongState boot [Conduits_ignored] /\
  (exists g1,
      confirmConduitsAligned 10 (mkGlobals Puzzle2 0 false false false 0)
      = Returns Accepted g1 [Conduits_confirmed] /\
      conduitsVerified g1 = true /\
      confirmConduitsAligned 20 g1
      = Returns AlreadyConfirmed g1 [Conduits_already]).
Proof.
  destruct confirmConduitsAligned_only_setter as (Hwrong & _ & _ & Htwice & _).
  split.
  - apply (Hwrong 0 boot). discriminate.
  - apply (Htwice 10 20 (mkGlobals Puzzle2 0 false false false 0));
      reflexivity.
Defined.

(** C8: in every reachable state [conduitsVerified] is true only in
    Puzzle2 or later, never in Puzzle1.  Every request preserves this:
    [resetGame] clears the flag, every request that enters Puzzle2 leaves
    it cleared (the stage before was Puzzle1), and the flag is only raised
    by the confirmation while the stage is, and stays, Puzzle2. *)
Theorem conduitsVerified_only_from_puzzle2 :
  (forall g : Globals,
      reachable g -> conduitsVerified g = true ->
      currentState g <> Puzzle1 /\
      (currentState g = Puzzle2 \/ currentState g = Puzzle3 \/
       currentState g = MissionComplete)) /\
  (forall (req : Request) (now : Z) (g g' : Globals) (resp : Response)
          (out : list SerialLine),
      handleClient req now g = Returns resp g' out ->
      conduits_gate g -> conduits_gate g') /\
  (forall (now : Z) (g : Globals),
      exists g' out,
        resetGame now g = Returns tt g' out /\ conduitsVerified g' = false) /\
  (forall (req : Request) (now : Z) (g g' : Globals) (resp : Response)
          (out : list SerialLine),
      handleClient req now g = Returns resp g' out ->
      currentState g <> Puzzle2 -> currentState g' = Puzzle2 ->
      currentState g = Puzzle1 /\ conduitsVerified g' = false) /\
  (forall (now : Z) (g g' : Globals) (result : ConduitConfirmResult)
          (out : list SerialLine),
      confirmConduitsAligned now g = Returns result g' out ->
      conduitsVerified g = false -> conduitsVerified g' = true ->
      currentState g = Puzzle2 /\ currentState g' = Puzzle2).
Proof.
  split; [|split; [|split; [|split]]].
  - intros g Hreach Hcv.
    pose proof (reachable_conduits_gate g Hreach Hcv) as Hne.
    split; [assumption|].
    destruct (currentState g); auto; congruence.
  - intros req now g g' resp out Hserve.
    apply handleClient_served in Hserve.
    apply served_conduits_gate with (1 := Hserve).
  - intros now g. rewrite resetGame_run. do 2 eexists.
    split; reflexivity.
  - intros req now g g' resp out Hserve.
    apply handleClient_served in Hserve.
    apply served_enters_puzzle2 with (1 := Hserve).
  - intros now g g' result out. rewrite confirmConduitsAligned_run.
    destruct g as [st i l [|] e x]; cbn; destruct st;
      intros H; inversion H; subst; cbn; intros; try discriminate; auto.
Qed.

Lemma conduitsVerified_only_from_puzzle2_witness :
  reachable (mkGlobals Puzzle2 0 false true false 0) /\
  currentState (mkGlobals Puzzle2 0 false true false 0) <> Puzzle1.
Proof.
  assert (Hreach : reachable (mkGlobals Puzzle2 0 false true false 0)).
  { apply (serve_reachable
             [(100, GET_remote (Some "A"%char)); (200, GET_confirm_conduits)]
             boot _ [Remote_A; Game_advanced_2; Conduits_confirmed]
             reachable_boot).
    - repeat constructor; cbn; lia.
    - reflexivity. }
  split; [exact Hreach|].
  apply (proj1 conduitsVerified_only_from_puzzle2 _ Hreach). reflexivity.
Defined.

(** ** Rejected operations *)

(** C9: outside Puzzle3 [registerButtonPress] only reports that the press
    is ignored and leaves every global as it was.  More generally every
    refused operation leaves the globals unchanged: a request whose console
    output carries a rejection line or whose response is not 200, a refused
    [advanceToPuzzle], a confirmation that is not Accepted, and a remote
    button that is not bound. *)
Theorem rejected_operations_change_nothing :
  (forall (buttonId now : Z) (g : Globals),
      currentState g <> Puzzle3 ->
      registerButtonPress buttonId now g = Returns tt g [Buttons_ignored]) /\
  (forall (req : Request) (now : Z) (g g' : Globals) (resp : Response)
          (out : list SerialLine),
      handleClient req now g = Returns resp g' out ->
      rejected out = true \/ status resp <> 200 ->
      g' = g) /\
  (forall (target : GameState) (now : Z) (g g' : Globals)
          (out : list SerialLine),
      advanceToPuzzle target now g = Returns tt g' out ->
      rejected out = true -> g' = g) /\
  (forall (now : Z) (g g' : Globals) (result : ConduitConfirmResult)
          (out : list SerialLine),
      confirmConduitsAligned now g = Returns result g' out ->
      result <> Accepted -> g' = g /\ rejected out = true) /\
  (forall (btn : ascii) (now : Z) (g g' : Globals) (out : list SerialLine),
      handleRemoteButton btn now g = Returns tt g' out ->
      In Remote_unknown out -> g' = g).
Proof.
  split; [|split; [|split; [|split]]].
  - intros buttonId now g Hst. apply registerButtonPress_outside; assumption.
  - intros req now g g' resp out Hserve [Hrej | Hstatus].
    + apply handleClient_served in Hserve.
      eapply served_rejected; eauto.
    + eapply handleClient_error_status; eauto.
  - intros target now g g' out. rewrite advanceToPuzzle_run.
    destruct g as [st i [|] cv e x]; cbn;
      destruct st, target; intros H; inversion H; subst;
      try reflexivity; discriminate.
  - intros now g g' result out. rewrite confirmConduitsAligned_run.
    destruct g as [st i l [|] e x]; cbn; destruct st;
      intros H; inversion H; subst; intros Hres; auto; congruence.
  - intros btn now g g' out.
    destruct (handleRemoteButton_cases btn)
      as [[Hr ->]|[[Hr ->]|[[Hr ->]|[[Hr ->]|[Hr ->]]]]];
      unfold bind, Serial_println;
      try rewrite advanceToPuzzle_run; try rewrite completeMission_run;
      try rewrite resetGame_run.
    + destruct g as [st i [|] cv e x]; cbn; destruct st;
        intros H; inversion H; subst; cbn; intuition discriminate.
    + destruct g as [st i [|] cv e x]; cbn; destruct st;
        intros H; inversion H; subst; cbn; intuition discriminate.
    + intros H; inversion H; subst; cbn; intuition discriminate.
    + destruct (latchTriggered g); intros H; inversion H; subst; cbn;
        intuition discriminate.
    + intros H; inversion H; subst. reflexivity.
Qed.

Lemma rejected_operations_change_nothing_witness :
  registerButtonPress 4 50 (mkGlobals Puzzle2 3 false true true 77)
  = Returns tt (mkGlobals Puzzle2 3 false true true 77) [Buttons_ignored] /\
  mkGlobals MissionComplete 15 true false false 0
  = mkGlobals MissionComplete 15 true false false 0.
Proof.
  destruct rejected_operations_change_nothing as (Houtside & Hreq & _).
  split.
  - apply (Houtside 4 50 (mkGlobals Puzzle2 3 false true true 77)).
    discriminate.
  - apply (Hreq (GET_remote (Some "A"%char)) 60
                (mkGlobals MissionComplete 15 true false false 0)
                (mkGlobals MissionComplete 15 true false false 0)
                (mkResponse 200 (Text_remote_accepted "A"%char))
                [Remote_A; Game_already_complete]).
    + reflexivity.
    + left. reflexivity.
Defined.

(** ** The pattern lookup stays in bounds *)

(** C10: in every reachable state in stage Puzzle3 the index is below the
    pattern length 15 (and never above it in any stage), so the lookup
    [BUTTON_SEQUENCE[nextSequenceIndex]] of [registerButtonPress] is within
    the array: on reachable states every button press and every request
    returns.  The lookup itself is unguarded: in Puzzle3 with the index at
    15 or more the press is undefined. *)
Theorem sequence_index_within_pattern :
  (forall g : Globals,
      reachable g ->
      0 <= nextSequenceIndex g <= BUTTON_SEQUENCE_LENGTH /\
      (currentState g = Puzzle3 ->
       nextSequenceIndex g < BUTTON_SEQUENCE_LENGTH /\
       exists expected,
         nth_error BUTTON_SEQUENCE (Z.to_nat (nextSequenceIndex g))
         = Some expected)) /\
  (forall (g : Globals) (buttonId now : Z),
      reachable g ->
      exists g' out, registerButtonPress buttonId now g = Returns tt g' out) /\
  (forall (g : Globals) (req : Request) (now : Z),
      reachable g ->
      exists resp g' out, handleClient req now g = Returns resp g' out) /\
  (forall (g : Globals) (buttonId now : Z),
      currentState g = Puzzle3 ->
      BUTTON_SEQUENCE_LENGTH <= nextSequenceIndex g ->
      registerButtonPress buttonId now g = Undefined) /\
  BUTTON_SEQUENCE_LENGTH = 15.
Proof.
  split; [|split; [|split; [|split]]].
  - intros g Hreach.
    destruct (reachable_index_in_bounds g Hreach) as [Hrange Hp3].
    split; [assumption|]. intros Hst. split; [auto|].
    destruct (BUTTON_SEQUENCE_defined (nextSequenceIndex g))
      as (expected & Hnth & _); [split; [lia|auto]|].
    eauto.
  - intros g buttonId now Hreach.
    apply registerButtonPress_returns, reachable_index_in_bounds, Hreach.
  - intros g req now Hreach.
    apply handleClient_returns, reachable_index_in_bounds, Hreach.
  - intros g buttonId now Hst Hidx.
    apply registerButtonPress_out_of_bounds; auto.
  - reflexivity.
Qed.

Lemma sequence_index_within_pattern_witness :
  reachable (mkGlobals Puzzle3 2 false false false 0) /\
  nextSequenceIndex (mkGlobals Puzzle3 2 false false false 0)
  < BUTTON_SEQUENCE_LENGTH.
Proof.
  assert (Hreach : reachable (mkGlobals Puzzle3 2 false false false 0)).
  { apply (serve_reachable
             [(100, GET_remote (Some "A"%char)); (200, GET_remote (Some "B"%char));
              (300, GET_puzzle_button (Some 4)); (400, GET_puzzle_button (Some 1))]
             boot _
             [Remote_A; Game_advanced_2; Remote_B; Game_advanced_3;
              Buttons_received 4; Buttons_progress 1 15;
              Buttons_received 1; Buttons_progress 2 15]
             reachable_boot).
    - repeat constructor; cbn; lia.
    - reflexivity. }
  split; [exact Hreach|].
  apply (proj2 (proj1 sequence_index_within_pattern _ Hreach)). reflexivity.
Defined.

(** * Further properties of the game logic *)

(** ** Invariants of the reachable states *)

Lemma served_latch_matches_stage (now : Z) (g g' : Globals) (req : Request)
      (out : list SerialLine) :
  served now g req g' out -> latch_matches_stage g -> latch_matches_stage g'.
Proof.
  unfold latch_matches_stage. intros H Hinv.
  served_inv H.
  - assumption.
  - destruct (negb _); [|destruct (_ >=? 0)]; inversion Hpoll; subst;
      cbn; assumption.
  - destruct g as [st i l cv e x]; cbn in *.
    destruct st, target, l; inversion Hadv; subst; cbn;
      intuition (try discriminate).
  - cbn. split; discriminate.
  - inversion Hcm; subst. cbn. split; reflexivity.
  - assumption.
  - destruct Hpress as [(_ & -> & _) | (Hst & Hin & expected & Hnth & Hcases)];
      [assumption|]. cbv zeta in Hcases. rewrite Hst in Hinv.
    destruct Hcases as [(_ & _ & -> & _) | [(_ & _ & -> & _) | (_ & -> & _)]];
      cbn; intuition (try discriminate).
  - destruct g as [st i l cv e x]; cbn in *.
    destruct st; try destruct cv; inversion Hconf; subst; cbn; assumption.
Qed.

Lemma served_error_display_consistent (now : Z) (g g' : Globals)
      (req : Request) (out : list SerialLine) :
  served now g req g' out ->
  error_display_consistent g -> error_display_consistent g'.
Proof.
  unfold error_display_consistent.
  assert (Hzero : Machine.is_word 0)
    by (unfold Machine.is_word, Machine.modulus, Machine.WORD_BITS; cbn; lia).
  intros H (Harmed & Hidle & Hword).
  served_inv H.
  - auto.
  - destruct (negb _); [|destruct (_ >=? 0)]; inversion Hpoll; subst;
      cbn; auto. repeat split; auto; discriminate.
  - destruct g as [st i l cv e x]; cbn in *.
    destruct st, target; inversion Hadv; subst; cbn; auto;
      repeat split; auto; discriminate.
  - cbn. repeat split; auto; discriminate.
  - inversion Hcm; subst. cbn. repeat split; auto; discriminate.
  - auto.
  - destruct Hpress as [(_ & -> & _) | (Hst & Hin & expected & Hnth & Hcases)];
      [auto|]. cbv zeta in Hcases.
    destruct Hcases as [(_ & _ & -> & _) | [(_ & _ & -> & _) | (_ & -> & _)]];
      cbn; repeat split; auto; try discriminate;
      apply MachineFacts.to_unsigned_word.
  - destruct g as [st i l cv e x]; cbn in *.
    destruct st; try destruct cv; inversion Hconf; subst; cbn; auto.
Qed.

Lemma reachable_latch_matches_stage (g : Globals) :
  reachable g -> latch_matches_stage g.
Proof.
  induction 1 as [|g g' now req resp out Hreach IH Hnow Hserve].
  - cbn. split; discriminate.
  - eapply served_latch_matches_stage; eauto using handleClient_served.
Qed.

(** X1: in every reachable state the latch flag is set exactly when the
    stage is MissionComplete. *)
Theorem reachable_latch_iff_mission_complete (g : Globals) :
  reachable g ->
  (latchTriggered g = true <-> currentState g = MissionComplete).
Proof. apply reachable_latch_matches_stage. Qed.

Lemma reachable_error_consistent (g : Globals) :
  reachable g -> error_display_consistent g.
Proof.
  induction 1 as [|g g' now req resp out Hreach IH Hnow Hserve].
  - cbn. repeat split; try discriminate; lia.
  - eapply served_error_display_consistent; eauto using handleClient_served.
Qed.

(** X2: in every reachable state the error flag is only set in Puzzle3
    with the index at 0, the expiry is 0 whenever the flag is clear, and
    the expiry is always a 32-bit clock value. *)
Theorem reachable_error_display_consistent (g : Globals) :
  reachable g ->
  (sequenceError g = true ->
   currentState g = Puzzle3 /\ nextSequenceIndex g = 0) /\
  (sequenceError g = false -> sequenceErrorExpiresAt g = 0) /\
  0 <= sequenceErrorExpiresAt g < 2 ^ 32.
Proof. apply reachable_error_consistent. Qed.

Lemma reachable_latch_iff_mission_complete_witness :
  reachable (mkGlobals MissionComplete 0 true false false 0) /\
  (latchTriggered (mkGlobals MissionComplete 0 true false false 0) = true <->
   currentState (mkGlobals MissionComplete 0 true false false 0)
   = MissionComplete).
Proof.
  assert (Hreach : reachable (mkGlobals MissionComplete 0 true false false 0)).
  { apply (serve_reachable [(100, GET_remote (Some "D"%char))] boot _
             [Remote_D; Latch_released; Game_mission_complete] reachable_boot).
    - repeat constructor; cbn; lia.
    - reflexivity. }
  split; [exact Hreach|].
  exact (reachable_latch_iff_mission_complete _ Hreach).
Defined.

Lemma reachable_error_display_consistent_witness :
  reachable (mkGlobals Puzzle3 0 false false true 2800) /\
  currentState (mkGlobals Puzzle3 0 false false true 2800) = Puzzle3 /\
  nextSequenceIndex (mkGlobals Puzzle3 0 false false true 2800) = 0.
Proof.
  assert (Hreach : reachable (mkGlobals Puzzle3 0 false false true 2800)).
  { apply (serve_reachable
             [(100, GET_remote (Some "A"%char)); (200, GET_remote (Some "B"%char));
              (300, GET_puzzle_button (Some 2))]
             boot _
             [Remote_A; Game_advanced_2; Remote_B; Game_advanced_3;
              Buttons_received 2; Buttons_incorrect 4]
             reachable_boot).
    - repeat constructor; cbn; lia.
    - reflexivity. }
  split; [exact Hreach|].
  apply (proj1 (reachable_error_display_consistent _ Hreach)). reflexivity.
Defined.

(** ** Progress within a session *)

Lemma served_stage_rank (now : Z) (g g' : Globals) (req : Request)
      (out : list SerialLine) :
  served now g req g' out ->
  is_remote_reset req = false ->
  (stage_rank (currentState g) <= stage_rank (currentState g'))%nat.
Proof.
  intros H Hsession.
  served_inv H.
  - lia.
  - destruct (negb _); [|destruct (_ >=? 0)]; inversion Hpoll; subst;
      cbn; lia.
  - destruct g as [st i l cv e x]; cbn in *.
    destruct st, target; inversion Hadv; subst; cbn; lia.
  - congruence.
  - inversion Hcm; subst. destruct (currentState g); cbn; lia.
  - lia.
  - destruct Hpress as [(_ & -> & _) | (Hst & Hin & expected & Hnth & Hcases)];
      [lia|]. cbv zeta in Hcases. rewrite Hst.
    destruct Hcases as [(_ & _ & -> & _) | [(_ & _ & -> & _) | (_ & -> & _)]];
      cbn; lia.
  - destruct g as [st i l cv e x]; cbn in *.
    destruct st; try destruct cv; inversion Hconf; subst; cbn; lia.
Qed.

Lemma served_conduits_kept (now : Z) (g g' : Globals) (req : Request)
      (out : list SerialLine) :
  served now g req g' out ->
  is_remote_reset req = false ->
  conduits_gate g ->
  conduitsVerified g = true -> conduitsVerified g' = true.
Proof.
  unfold conduits_gate. intros H Hsession Hgate Hcv.
  specialize (Hgate Hcv).
  served_inv H.
  - assumption.
  - destruct (negb _); [|destruct (_ >=? 0)]; inversion Hpoll; subst;
      cbn; assumption.
  - destruct g as [st i l cv e x]; cbn in *.
    destruct st, target; inversion Hadv; subst; cbn; congruence.
  - congruence.
  - inversion Hcm; subst. assumption.
  - assumption.
  - destruct Hpress as [(_ & -> & _) | (Hst & Hin & expected & Hnth & Hcases)];
      [assumption|]. cbv zeta in Hcases.
    destruct Hcases as [(_ & _ & -> & _) | [(_ & _ & -> & _) | (_ & -> & _)]];
      cbn; assumption.
  - destruct g as [st i l cv e x]; cbn in *.
    destruct st; try destruct cv; inversion Hconf; subst; cbn; congruence.
Qed.

(** X3: within a session (no remote reset) the stage never moves backwards
    in the order Puzzle1, Puzzle2, Puzzle3, MissionComplete; in particular
    MissionComplete is only left by a reset. *)
Theorem session_stage_never_decreases (reqs : list (Z * Request)) :
  forall (g g' : Globals) (out : list SerialLine),
    in_session reqs = true ->
    serve reqs g = Some (g', out) ->
    (stage_rank (currentState g) <= stage_rank (currentState g'))%nat /\
    (currentState g = MissionComplete -> currentState g' = MissionComplete).
Proof.
  assert (Hrank : forall g g' out,
             in_session reqs = true -> serve reqs g = Some (g', out) ->
             (stage_rank (currentState g) <= stage_rank (currentState g'))%nat).
  { induction reqs as [|[now req] rest IH]; intros g g' out Hsession Hserve.
    - cbn in Hserve. inversion Hserve; subst. lia.
    - cbn in Hserve, Hsession. apply andb_prop in Hsession as [Hreq Hrest].
      destruct (handleClient req now g) as [resp g1 out1|] eqn:Hstep;
        [|discriminate].
      destruct (serve rest g1) as [[g2 out2]|] eqn:Htail; [|discriminate].
      inversion Hserve; subst.
      specialize (IH _ _ _ Hrest Htail).
      apply handleClient_served in Hstep.
      apply served_stage_rank in Hstep;
        [lia | destruct (is_remote_reset req); [discriminate|reflexivity]]. }
  intros g g' out Hsession Hserve.
  specialize (Hrank g g' out Hsession Hserve).
  split; [assumption|].
  intros Hdone. rewrite Hdone in Hrank.
  destruct (currentState g'); cbn in Hrank; try lia. reflexivity.
Qed.

Lemma session_stage_never_decreases_witness :
  (stage_rank Puzzle2 <= stage_rank Puzzle3)%nat.
Proof.
  apply (session_stage_never_decreases
           [(10, GET_remote (Some "b"%char)); (20, GET_remote (Some "A"%char))]
           (mkGlobals Puzzle2 0 false false false 0)
           (mkGlobals Puzzle3 0 false false false 0)
           [Remote_B; Game_advanced_3; Remote_A; Game_invalid_transition]);
    reflexivity.
Defined.

Lemma serve_conduits_kept (reqs : list (Z * Request)) :
  forall (g g' : Globals) (out : list SerialLine),
    conduits_gate g ->
    in_session reqs = true ->
    serve reqs g = Some (g', out) ->
    conduitsVerified g = true -> conduitsVerified g' = true.
Proof.
  induction reqs as [|[now req] rest IH];
    intros g g' out Hgate Hsession Hserve Hcv.
  - cbn in Hserve. inversion Hserve; subst. assumption.
  - cbn in Hserve, Hsession. apply andb_prop in Hsession as [Hreq Hrest].
    destruct (handleClient req now g) as [resp g1 out1|] eqn:Hstep;
      [|discriminate].
    destruct (serve rest g1) as [[g2 out2]|] eqn:Htail; [|discriminate].
    inversion Hserve; subst.
    pose proof (handleClient_served _ _ _ _ _ _ Hstep) as Hserved.
    apply (IH g1 g' out2); try assumption.
    + eapply served_conduits_gate; eauto.
    + eapply served_conduits_kept; eauto.
      destruct (is_remote_reset req); [discriminate|reflexivity].
Qed.

(** X4: starting from a reachable state, once the conduits are verified
    they stay verified for the rest of the session, whatever is requested,
    until a remote reset. *)
Theorem session_conduits_stay_verified
        (reqs : list (Z * Request)) (g g' : Globals) (out : list SerialLine) :
  reachable g ->
  in_session reqs = true ->
  serve reqs g = Some (g', out) ->
  conduitsVerified g = true -> conduitsVerified g' = true.
Proof.
  intros Hreach. apply serve_conduits_kept.
  apply reachable_conduits_gate. assumption.
Qed.

Lemma session_conduits_stay_verified_witness :
  conduitsVerified (mkGlobals MissionComplete 0 true true false 0) = true.
Proof.
  assert (Hreach : reachable (mkGlobals Puzzle2 0 false true false 0)).
  { apply (serve_reachable
             [(100, GET_remote (Some "A"%char)); (200, GET_confirm_conduits)]
             boot _ [Remote_A; Game_advanced_2; Conduits_confirmed]
             reachable_boot).
    - repeat constructor; cbn; lia.
    - reflexivity. }
  apply (session_conduits_stay_verified
           [(300, GET_remote (Some "B"%char)); (400, GET_remote (Some "A"%char));
            (500, GET_remote (Some "D"%char))]
           (mkGlobals Puzzle2 0 false true false 0)
           (mkGlobals MissionComplete 0 true true false 0)
           [Remote_B; Game_advanced_3; Remote_A; Game_invalid_transition;
            Remote_D; Latch_released; Game_mission_complete]
           Hreach); reflexivity.
Defined.

(** X5: on a reachable state a request fires the latch exactly when it
    moves the stage into MissionComplete, and then exactly once. *)
Theorem latch_fires_on_entering_mission_complete
        (req : Request) (now : Z) (g g' : Globals) (resp : Response)
        (out : list SerialLine) :
  reachable g ->
  handleClient req now g = Returns resp g' out ->
  latch_firings out =
  (if negb (GameState_eqb (currentState g) MissionComplete)
      && GameState_eqb (currentState g') MissionComplete
   then 1%nat else 0%nat).
Proof.
  intros Hreach Hserve.
  pose proof (reachable_latch_matches_stage g Hreach) as Hg.
  unfold latch_matches_stage in Hg.
  pose proof (handleClient_served _ _ _ _ _ _ Hserve) as Hserved.
  pose proof (served_latch_matches_stage _ _ _ _ _ Hserved Hg) as Hg'.
  unfold latch_matches_stage in Hg'.
  destruct (is_remote_reset req) eqn:Hreq.
  - inversion Hserved; subst; cbn in Hreq; try congruence.
    destruct (currentState g); reflexivity.
  - pose proof (served_latch _ _ _ _ _ Hserved Hreq) as Hcount.
    unfold bool_to_nat in Hcount.
    destruct (latchTriggered g), (latchTriggered g'),
      (currentState g), (currentState g'); cbn;
      try lia;
      try (destruct Hg as [Hg1 Hg2]; destruct Hg' as [Hg1' Hg2'];
           try (specialize (Hg1 eq_refl); discriminate);
           try (specialize (Hg2 eq_refl); discriminate);
           try (specialize (Hg1' eq_refl); discriminate);
           try (specialize (Hg2' eq_refl); discriminate)).
Qed.

Lemma latch_fires_on_entering_mission_complete_witness :
  latch_firings [Remote_D; Latch_released; Game_mission_complete] = 1%nat.
Proof.
  exact (latch_fires_on_entering_mission_complete
           (GET_remote (Some "D"%char)) 100 boot
           (mkGlobals MissionComplete 0 true false false 0)
           (mkResponse 200 (Text_remote_accepted "D"%char))
           [Remote_D; Latch_released; Game_mission_complete]
           reachable_boot eq_refl).
Defined.

(** ** The matcher only completes on the whole pattern *)

Lemma firstn_snoc_nth {A : Type} (l : list A) :
  forall (n : nat) (x : A),
    nth_error l n = Some x -> firstn (S n) l = firstn n l ++ [x].
Proof.
  induction l as [|a l IH]; intros [|n] x Hnth; cbn in *; try discriminate.
  - inversion Hnth; reflexivity.
  - rewrite <- (IH n x Hnth). reflexivity.
Qed.

Lemma press_all_outside (clock : nat -> Z) (ids : list Z) :
  forall (k : nat) (g : Globals),
    currentState g <> Puzzle3 ->
    exists out, press_all clock k ids g = Returns tt g out.
Proof.
  induction ids as [|id rest IH]; intros k g Hst; cbn [press_all].
  - eauto.
  - rewrite registerButtonPress_outside by assumption.
    destruct (IH (S k) g Hst) as (out & ->). eauto.
Qed.

Lemma press_all_history (clock : nat -> Z) (ids : list Z) :
  forall (k : nat) (history : list Z) (g g' : Globals) (out : list SerialLine),
    currentState g = Puzzle3 ->
    (exists before,
        history = before ++ firstn (Z.to_nat (nextSequenceIndex g)) BUTTON_SEQUENCE) ->
    press_all clock k ids g = Returns tt g' out ->
    (currentState g' = Puzzle3 /\
     exists before,
       history ++ ids
       = before ++ firstn (Z.to_nat (nextSequenceIndex g')) BUTTON_SEQUENCE) \/
    (currentState g' = MissionComplete /\
     exists before after,
       history ++ ids = before ++ BUTTON_SEQUENCE ++ after).
Proof.
  induction ids as [|id rest IH];
    intros k history g g' out Hst (before & Hhist) Hrun;
    cbn [press_all] in Hrun.
  - inversion Hrun; subst g'. left. split; [assumption|].
    exists before. rewrite app_nil_r. assumption.
  - destruct (registerButtonPress id (clock k) g) as [[] g1 out1|] eqn:Hpress;
      [|discriminate].
    destruct (press_all clock (S k) rest g1) as [[] g2 out2|] eqn:Htail;
      [|discriminate].
    inversion Hrun; subst g2 out. clear Hrun.
    apply registerButtonPress_inv in Hpress.
    destruct Hpress as [(Hne & _) | (_ & Hin & expected & Hnth & Hcases)];
      [congruence|].
    rewrite BUTTON_SEQUENCE_LENGTH_value in *. cbv zeta in Hcases.
    assert (Hsmall : Machine.to_unsigned (nextSequenceIndex g + 1)
                     = nextSequenceIndex g + 1).
    { apply MachineFacts.to_unsigned_small. unfold Machine.is_word,
        Machine.modulus, Machine.WORD_BITS. lia. }
    rewrite Hsmall in Hcases.
    assert (Hgrow : before ++ firstn (Z.to_nat (nextSequenceIndex g + 1))
                                     BUTTON_SEQUENCE
                    = history ++ [expected]).
    { replace (Z.to_nat (nextSequenceIndex g + 1))
        with (S (Z.to_nat (nextSequenceIndex g))) by lia.
      rewrite (firstn_snoc_nth _ _ _ Hnth), app_assoc, <- Hhist.
      reflexivity. }
    replace (history ++ id :: rest) with ((history ++ [id]) ++ rest)
      by (rewrite <- app_assoc; reflexivity).
    destruct Hcases as [(-> & Hlt & -> & _) | [(-> & Hge & -> & _) | (_ & -> & _)]].
    + eapply (IH (S k) (history ++ [expected])); [| |exact Htail];
        [reflexivity|].
      exists before. cbn [nextSequenceIndex]. symmetry. exact Hgrow.
    + destruct (press_all_outside clock rest (S k)
                  (mkGlobals MissionComplete (nextSequenceIndex g + 1) true
                             (conduitsVerified g) false 0))
        as (out' & Hdone); [discriminate|].
      rewrite Hdone in Htail. inversion Htail; subst g'.
      right. split; [reflexivity|].
      exists before, rest. rewrite <- Hgrow.
      replace (nextSequenceIndex g + 1) with 15 by lia.
      rewrite <- app_assoc. reflexivity.
    + eapply (IH (S k) (history ++ [id])); [| |exact Htail];
        [reflexivity|].
      exists (history ++ [id]). cbn. rewrite app_nil_r. reflexivity.
Qed.

(** X6: the matcher never completes on anything but the pattern.  From
    Puzzle3 with the index at 0, if a run of button presses ends in
    MissionComplete then the presses contain the whole pattern as a
    contiguous block; and while the game is still in Puzzle3 the last
    [nextSequenceIndex] presses are the first entries of the pattern. *)
Theorem matcher_completes_only_on_pattern
        (clock : nat -> Z) (ids : list Z) (g g' : Globals)
        (out : list SerialLine) :
  currentState g = Puzzle3 ->
  nextSequenceIndex g = 0 ->
  press_all clock 0 ids g = Returns tt g' out ->
  (currentState g' = MissionComplete ->
   exists before after, ids = before ++ BUTTON_SEQUENCE ++ after) /\
  (currentState g' = Puzzle3 ->
   exists before,
     ids = before ++ firstn (Z.to_nat (nextSequenceIndex g')) BUTTON_SEQUENCE) /\
  (currentState g' = Puzzle3 \/ currentState g' = MissionComplete).
Proof.
  intros Hst Hidx Hrun.
  destruct (press_all_history clock ids 0 [] g g' out Hst) as [[Hp3 Hsuf]|[Hmc Hpat]];
    [exists []; rewrite Hidx; reflexivity | assumption | | ].
  - split; [intros; congruence|]. split; [intros _; exact Hsuf | auto].
  - split; [intros _; exact Hpat|]. split; [intros; congruence | auto].
Qed.

Lemma matcher_completes_only_on_pattern_witness :
  exists before,
    [4; 1; 2; 4; 1; 5]
    = before ++ firstn (Z.to_nat 3) BUTTON_SEQUENCE.
Proof.
  apply (proj1 (proj2
           (matcher_completes_only_on_pattern
              (fun _ => 0) [4; 1; 2; 4; 1; 5]
              (mkGlobals Puzzle3 0 false false false 0)
              (mkGlobals Puzzle3 3 false false false 0)
              [Buttons_received 4; Buttons_progress 1 15;
               Buttons_received 1; Buttons_progress 2 15;
               Buttons_received 2; Buttons_incorrect 5;
               Buttons_received 4; Buttons_progress 1 15;
               Buttons_received 1; Buttons_progress 2 15;
               Buttons_received 5; Buttons_progress 3 15]
              eq_refl eq_refl eq_refl))).
  reflexivity.
Defined.

(** ** The display *)

Lemma sequence_row_nth (index : Z) (rest : list Z) :
  forall (start : Z) (i : nat) (b : Z),
    nth_error rest i = Some b ->
    nth_error (sequence_row index start rest) i
    = Some (step_class index (start + Z.of_nat i), b).
Proof.
  induction rest as [|a rest IH]; intros start [|i] b Hnth; cbn in Hnth;
    try discriminate.
  - inversion Hnth; subst. cbn [sequence_row nth_error].
    replace (start + Z.of_nat 0) with start by lia. reflexivity.
  - cbn [sequence_row nth_error]. rewrite (IH (start + 1) i b Hnth).
    replace (start + 1 + Z.of_nat i) with (start + Z.of_nat (S i)) by lia.
    reflexivity.
Qed.

Lemma sequence_row_length (index : Z) (rest : list Z) :
  forall start : Z, length (sequence_row index start rest) = length rest.
Proof.
  induction rest as [|a rest IH]; intros start; cbn; [reflexivity|].
  rewrite IH. reflexivity.
Qed.

Lemma storyTextForState_inv (now : Z) (g : Globals) (story : StoryText)
      (g' : Globals) (out : list SerialLine) :
  storyTextForState now g = Returns story g' out ->
  out = [] /\
  ((currentState g <> Puzzle3 /\ g' = g) \/
   (currentState g = Puzzle3 /\
    exists status alert,
      story = Story_button_sequence status alert /\
      buildSequenceStatusHtml now g = Returns status g [] /\
      isSequenceErrorActive now g = Returns alert g' [])).
Proof.
  intros H. unfold storyTextForState in H.
  destruct g as [st i l cv e x]. destruct st.
  - unfold_monad; cbn in H. inversion H; subst.
    split; [reflexivity|]. left. split; [discriminate|reflexivity].
  - unfold_monad; cbn in H.
    destruct cv; inversion H; subst;
      (split; [reflexivity|]); left; (split; [discriminate|reflexivity]).
  - unfold bind at 1 in H. unfold read at 1 in H.
    cbn [currentState] in H. unfold bind at 1 in H.
    destruct (buildSequenceStatusHtml now _) as [s g1 o1|] eqn:Hb; [|discriminate].
    destruct (buildSequenceStatusHtml_pure _ _ _ _ _ Hb) as [-> ->].
    unfold bind in H.
    destruct (isSequenceErrorActive now _) as [a g2 o2|] eqn:Ha; [|discriminate].
    unfold ret in H. inversion H; subst.
    assert (o2 = []) by (eapply isSequenceErrorActive_silent; eauto).
    subst o2. split; [reflexivity|]. right. split; [reflexivity|].
    exists s, a. auto.
  - unfold_monad; cbn in H. inversion H; subst.
    split; [reflexivity|]. left. split; [discriminate|reflexivity].
Qed.

Lemma isSequenceErrorActive_progress (now : Z) (g g' : Globals)
      (alert : bool) (out : list SerialLine) :
  isSequenceErrorActive now g = Returns alert g' out ->
  progress_of g' = progress_of g /\
  (sequenceError g = false -> g' = g) /\
  (alert = true -> g' = g).
Proof.
  rewrite isSequenceErrorActive_run.
  destruct g as [st i l cv e x]; cbn.
  destruct e; cbn; [destruct (_ >=? 0)|]; intros H; inversion H; subst;
    repeat split; auto; discriminate.
Qed.

Lemma storyTextForState_effect (now : Z) (g : Globals) :
  forall (story : StoryText) (g1 : Globals) (o1 : list SerialLine),
    storyTextForState now g = Returns story g1 o1 ->
    o1 = [] /\ progress_of g1 = progress_of g /\
    (currentState g <> Puzzle3 -> g1 = g) /\
    (sequenceError g = false -> g1 = g) /\
    (sequenceError g1 = true -> g1 = g).
Proof.
  intros story g1 o1 Hs.
  apply storyTextForState_inv in Hs.
  destruct Hs as (-> & [(Hne & ->) | (Hst & status & alert & _ & _ & Hpoll)]);
    [repeat split; auto|].
  split; [reflexivity|].
  destruct (isSequenceErrorActive_progress _ _ _ _ _ Hpoll) as (Hp & Hoff & _).
  split; [assumption|]. split; [congruence|]. split; [assumption|].
  rewrite isSequenceErrorActive_run in Hpoll.
  destruct (sequenceError g) eqn:He; cbn in Hpoll;
    [destruct (_ >=? 0)|]; inversion Hpoll; subst; cbn; auto; discriminate.
Qed.

(** X7: the display requests (the mission page, its polled fragment, the
    control panel and unknown paths) never print to the console and never
    change the stage, the index, the latch flag or the conduit gate.
    Outside Puzzle3, and whenever no sequence error is flagged, they change
    nothing at all: the only write a display request can make is the lazy
    clearing of an expired error. *)
Theorem display_requests_keep_progress
        (req : Request) (now : Z) (g g' : Globals) (resp : Response)
        (out : list SerialLine) :
  req = GET_root \/ req = GET_dcd_fragment \/
  req = GET_control \/ req = GET_elsewhere ->
  handleClient req now g = Returns resp g' out ->
  out = [] /\
  progress_of g' = progress_of g /\
  (currentState g <> Puzzle3 -> g' = g) /\
  (sequenceError g = false -> g' = g) /\
  (sequenceError g' = true -> g' = g).
Proof.
  pose proof (storyTextForState_effect now g) as Hstory.
  intros [-> | [-> | [-> | ->]]]; cbn [handleClient].
  - unfold handleRoot, bind. intros H.
    destruct (storyTextForState now g) as [s g1 o1|] eqn:Hs; [|discriminate].
    cbn in H. inversion H; subst. rewrite app_nil_r. eauto.
  - unfold handleDcdFragment, bind. intros H.
    destruct (storyTextForState now g) as [s g1 o1|] eqn:Hs; [|discriminate].
    cbn in H. inversion H; subst. rewrite app_nil_r. eauto.
  - intros H; inversion H; subst. repeat split; auto.
  - intros H; inversion H; subst. repeat split; auto.
Qed.

Lemma display_requests_keep_progress_witness :
  progress_of (mkGlobals Puzzle3 0 false true false 0)
  = progress_of (mkGlobals Puzzle3 0 false true true 2600).
Proof.
  apply (display_requests_keep_progress
           GET_dcd_fragment 2600
           (mkGlobals Puzzle3 0 false true true 2600)
           (mkGlobals Puzzle3 0 false true false 0)
           (mkResponse 200
              (Fragment_dcd
                 (Story_button_sequence
                    (mkSequenceStatus (Some 4)
                       (sequence_row 0 0 BUTTON_SEQUENCE)) false)))
           []).
  - right; left; reflexivity.
  - reflexivity.
Defined.

Lemma storyTextForState_puzzle3 (now : Z) (g g' : Globals)
      (expected : Z) (alert : bool) :
  currentState g = Puzzle3 ->
  0 <= nextSequenceIndex g ->
  nth_error BUTTON_SEQUENCE (Z.to_nat (nextSequenceIndex g)) = Some expected ->
  isSequenceErrorActive now g = Returns alert g' [] ->
  storyTextForState now g
  = Returns (Story_button_sequence
               (mkSequenceStatus
                  (Some expected)
                  (sequence_row (nextSequenceIndex g) 0 BUTTON_SEQUENCE))
               alert) g' [].
Proof.
  intros Hst Hpos Hnth Hpoll.
  assert (Hlt : nextSequenceIndex g < 15).
  { assert (Hsome : nth_error BUTTON_SEQUENCE (Z.to_nat (nextSequenceIndex g))
                    <> None) by congruence.
    apply nth_error_Some in Hsome. cbn in Hsome. lia. }
  destruct g as [st i l cv e x]; cbn in Hst, Hnth, Hpos, Hlt; subst st.
  unfold storyTextForState, buildSequenceStatusHtml, array_at.
  unfold bind, read, ret. cbn [currentState nextSequenceIndex].
  change BUTTON_SEQUENCE_LENGTH with 15 in *.
  destruct (Z.ltb_spec i 15); [|lia].
  destruct (Z.ltb_spec i 0); [lia|]. rewrite Hnth, Hpoll. reflexivity.
Qed.

(** X8: in Puzzle3 with the index inside the pattern (so in every reachable
    Puzzle3 state) the story is the button-sequence panel: the next input
    shown is the pattern entry at the index (never the check mark), the row
    has one slot per pattern entry, slot [i] carries entry [i] and is
    "done" below the index, "active" at the index and "pending" above it,
    and the alert is shown exactly when the error query answers true. *)
Theorem story_shows_sequence_progress
        (now : Z) (g : Globals) :
  reachable g ->
  currentState g = Puzzle3 ->
  exists expected alert g',
    nth_error BUTTON_SEQUENCE (Z.to_nat (nextSequenceIndex g)) = Some expected /\
    isSequenceErrorActive now g = Returns alert g' [] /\
    storyTextForState now g
    = Returns (Story_button_sequence
                 (mkSequenceStatus
                    (Some expected)
                    (sequence_row (nextSequenceIndex g) 0 BUTTON_SEQUENCE))
                 alert) g' [] /\
    length (sequence_row (nextSequenceIndex g) 0 BUTTON_SEQUENCE)
    = length BUTTON_SEQUENCE /\
    (forall (i : nat) (b : Z),
        nth_error BUTTON_SEQUENCE i = Some b ->
        nth_error (sequence_row (nextSequenceIndex g) 0 BUTTON_SEQUENCE) i
        = Some ((if Z.of_nat i <? nextSequenceIndex g then step_done
                 else if Z.of_nat i =? nextSequenceIndex g then step_active
                 else step_pending), b)).
Proof.
  intros Hreach Hst.
  destruct (reachable_index_in_bounds g Hreach) as [Hrange Hp3].
  specialize (Hp3 Hst).
  destruct (BUTTON_SEQUENCE_defined (nextSequenceIndex g)) as (expected & Hnth & _);
    [lia|].
  destruct (isSequenceErrorActive now g) as [alert g' o|] eqn:Hpoll.
  2:{ rewrite isSequenceErrorActive_run in Hpoll.
      destruct (negb _); [|destruct (_ >=? 0)]; discriminate. }
  assert (o = []) by (eapply isSequenceErrorActive_silent; eauto). subst o.
  exists expected, alert, g'.
  split; [assumption|]. split; [reflexivity|]. split; [|split].
  - apply storyTextForState_puzzle3; auto; lia.
  - apply sequence_row_length.
  - intros i b Hi.
    rewrite (sequence_row_nth _ _ 0 i b Hi). reflexivity.
Qed.

Lemma story_shows_sequence_progress_witness :
  exists expected alert g',
    nth_error BUTTON_SEQUENCE (Z.to_nat 2) = Some expected /\
    isSequenceErrorActive 500 (mkGlobals Puzzle3 2 false false false 0)
    = Returns alert g' [] /\
    storyTextForState 500 (mkGlobals Puzzle3 2 false false false 0)
    = Returns (Story_button_sequence
                 (mkSequenceStatus (Some expected)
                                   (sequence_row 2 0 BUTTON_SEQUENCE))
                 alert) g' [].
Proof.
  assert (Hreach : reachable (mkGlobals Puzzle3 2 false false false 0)).
  { apply (serve_reachable
             [(100, GET_remote (Some "A"%char)); (200, GET_remote (Some "B"%char));
              (300, GET_puzzle_button (Some 4)); (400, GET_puzzle_button (Some 1))]
             boot _
             [Remote_A; Game_advanced_2; Remote_B; Game_advanced_3;
              Buttons_received 4; Buttons_progress 1 15;
              Buttons_received 1; Buttons_progress 2 15]
             reachable_boot).
    - repeat constructor; cbn; lia.
    - reflexivity. }
  destruct (story_shows_sequence_progress 500 _ Hreach eq_refl)
    as (expected & alert & g' & H1 & H2 & H3 & _).
  exists expected, alert, g'. auto.
Defined.

(** X9: the error query only ever clears.  It leaves the game progress
    alone; answering true it changes nothing; and once it has answered
    false the state it leaves answers false at every later clock reading,
    with no further change, until a new mismatch is registered. *)
Theorem error_alert_stays_off
        (now : Z) (g g' : Globals) (alert : bool) (out : list SerialLine) :
  isSequenceErrorActive now g = Returns alert g' out ->
  out = [] /\
  progress_of g' = progress_of g /\
  (alert = true -> g' = g /\ sequenceError g = true) /\
  (alert = false ->
   sequenceError g' = false /\
   forall later : Z, isSequenceErrorActive later g' = Returns false g' []).
Proof.
  intros H.
  split; [eapply isSequenceErrorActive_silent; eauto|].
  split; [eapply isSequenceErrorActive_progress; eauto|].
  rewrite isSequenceErrorActive_run in H.
  destruct g as [st i l cv e x]; cbn in H.
  destruct e; cbn in H; [destruct (_ >=? 0)|]; inversion H; subst;
    split; intros Halert; try discriminate; auto.
Qed.

Lemma error_alert_stays_off_witness :
  isSequenceErrorActive 4000000000 (mkGlobals Puzzle3 0 false false false 0)
  = Returns false (mkGlobals Puzzle3 0 false false false 0) [].
Proof.
  apply (proj2 (proj2 (proj2 (error_alert_stays_off
           3500 (mkGlobals Puzzle3 0 false false true 3500)
           (mkGlobals Puzzle3 0 false false false 0) false [] eq_refl)))).
  reflexivity.
Defined.

(** ** The endpoints *)

Lemma handleRemoteButton_unbound (btn : ascii) (now : Z) (g : Globals) :
  is_bound_button btn = false ->
  handleRemoteButton btn now g = Returns tt g [Remote_unknown].
Proof.
  destruct btn as [[|] [|] [|] [|] [|] [|] [|] [|]]; cbn;
    intros Hb; try discriminate; reflexivity.
Qed.

(** X10: the remote understands exactly eight characters.  Lower case
    behaves as upper case, and any other character leaves the globals
    untouched and prints only the unknown-button line, while the endpoint
    still answers 200 "Remote input accepted". *)
Theorem remote_buttons_unbound_ignored (btn : ascii) (now : Z) (g : Globals) :
  is_bound_button btn = false ->
  handleRemoteButton btn now g = Returns tt g [Remote_unknown] /\
  handleClient (GET_remote (Some btn)) now g
  = Returns (mkResponse 200 (Text_remote_accepted btn)) g [Remote_unknown] /\
  handleRemoteButton "a"%char now g = handleRemoteButton "A"%char now g /\
  handleRemoteButton "b"%char now g = handleRemoteButton "B"%char now g /\
  handleRemoteButton "c"%char now g = handleRemoteButton "C"%char now g /\
  handleRemoteButton "d"%char now g = handleRemoteButton "D"%char now g.
Proof.
  intros Hb. split; [apply handleRemoteButton_unbound; assumption|].
  split; [|repeat split].
  cbn [handleClient]. unfold handleRemoteEndpoint, bind.
  rewrite handleRemoteButton_unbound by assumption. reflexivity.
Qed.

Lemma remote_buttons_unbound_ignored_witness :
  handleRemoteButton "E"%char 10 (mkGlobals Puzzle2 0 false true false 0)
  = Returns tt (mkGlobals Puzzle2 0 false true false 0) [Remote_unknown].
Proof.
  apply (proj1 (remote_buttons_unbound_ignored
                  "E"%char 10 (mkGlobals Puzzle2 0 false true false 0)
                  eq_refl)).
Defined.

Lemma handleClient_status (req : Request) (now : Z) (g : Globals)
      (resp : Response) (g' : Globals) (out : list SerialLine) :
  handleClient req now g = Returns resp g' out ->
  status resp = status_of_request req.
Proof.
  destruct req as [ | | | [btn|] | [value|] | | ]; cbn [handleClient].
  - unfold handleRoot, bind.
    destruct (storyTextForState now g); [|discriminate].
    cbn. intros H; inversion H; subst. reflexivity.
  - unfold handleDcdFragment, bind.
    destruct (storyTextForState now g); [|discriminate].
    cbn. intros H; inversion H; subst. reflexivity.
  - cbn. intros H; inversion H; subst. reflexivity.
  - unfold handleRemoteEndpoint, bind.
    destruct (handleRemoteButton btn now g); [|discriminate].
    cbn. intros H; inversion H; subst. reflexivity.
  - cbn. intros H; inversion H; subst. reflexivity.
  - unfold handlePuzzleButtonEndpoint, status_of_request.
    destruct (_ || _); [cbn; intros H; inversion H; subst; reflexivity|].
    unfold bind.
    destruct (registerButtonPress (value mod 256) now g); [|discriminate].
    cbn. intros H; inversion H; subst. reflexivity.
  - cbn. intros H; inversion H; subst. reflexivity.
  - unfold handleConfirmConduitsEndpoint, bind.
    destruct (confirmConduitsAligned now g) as [[] ? ?|]; [| | |discriminate];
      cbn; intros H; inversion H; subst; reflexivity.
  - cbn. intros H; inversion H; subst. reflexivity.
Qed.

(** X11: the status code of a response is decided by the request alone,
    never by the game: 400 for a missing [btn] or [id] and for an id
    outside 1..5, 404 for an unknown path, 200 otherwise -- also for a
    press that is ignored or wrong.  A response other than 200 means
    nothing was changed or printed; a 200 on the puzzle-button endpoint
    means the id was within 1..5 and exactly [registerButtonPress] of that
    id ran. *)
Theorem response_status_decided_by_request
        (req : Request) (now : Z) (g g' : Globals) (resp : Response)
        (out : list SerialLine) :
  handleClient req now g = Returns resp g' out ->
  status resp = status_of_request req /\
  (status resp <> 200 -> g' = g /\ out = []) /\
  (forall value : Z,
      req = GET_puzzle_button (Some value) ->
      status resp = 200 ->
      1 <= value <= 5 /\
      registerButtonPress value now g = Returns tt g' out).
Proof.
  intros H. split; [eapply handleClient_status; eauto|].
  split; [eapply handleClient_error_status; eauto|].
  intros value -> Hok. cbn [handleClient] in H.
  unfold handlePuzzleButtonEndpoint in H.
  destruct (Z.ltb_spec value 1) as [Hlo|Hlo]; cbn [orb] in H.
  { inversion H; subst. cbn in Hok. discriminate. }
  destruct (Z.gtb_spec value 5) as [Hhi|Hhi].
  { inversion H; subst. cbn in Hok. discriminate. }
  split; [lia|]. unfold bind, ret in H.
  rewrite Z.mod_small in H by lia.
  destruct (registerButtonPress value now g) as [[] g1 o1|]; [|discriminate].
  inversion H; subst. rewrite app_nil_r. reflexivity.
Qed.

Lemma response_status_decided_by_request_witness :
  status (mkResponse 200 (Text_button_registered 3)) = 200 /\
  1 <= 3 <= 5.
Proof.
  destruct (response_status_decided_by_request
              (GET_puzzle_button (Some 3)) 10 boot boot
              (mkResponse 200 (Text_button_registered 3)) [Buttons_ignored]
              eq_refl) as (Hstatus & _ & Hpress).
  split; [exact Hstatus|].
  exact (proj1 (Hpress 3 eq_refl eq_refl)).
Defined.

(** ** Recovery *)

Lemma serve_app (a b : list (Z * Request)) :
  forall (g g1 g2 : Globals) (out1 out2 : list SerialLine),
    serve a g = Some (g1, out1) ->
    serve b g1 = Some (g2, out2) ->
    serve (a ++ b) g = Some (g2, out1 ++ out2).
Proof.
  induction a as [|[now req] a IH]; intros g g1 g2 out1 out2 Ha Hb.
  - cbn in Ha. inversion Ha; subst. exact Hb.
  - cbn in Ha. cbn [app serve].
    destruct (handleClient req now g) as [resp g0 o0|]; [|discriminate].
    destruct (serve a g0) as [[g3 o3]|] eqn:Htail; [|discriminate].
    inversion Ha; subst.
    rewrite (IH g0 g1 g2 o3 out2 Htail Hb), app_assoc. reflexivity.
Qed.

Lemma reachable_serve (g : Globals) :
  reachable g -> exists reqs out, serve reqs boot = Some (g, out).
Proof.
  induction 1 as [|g g' now req resp out Hreach (reqs & out0 & IH) Hnow Hserve].
  - exists [], []. reflexivity.
  - exists (reqs ++ [(now, req)]), (out0 ++ out).
    apply (serve_app reqs [(now, req)] boot g g' out0 out IH).
    cbn. rewrite Hserve, app_nil_r. reflexivity.
Qed.

(** X12: the game has no dead end.  From any state whatsoever -- also
    MissionComplete, also mid-pattern with an error flagged -- a remote
    reset followed by suitable requests brings the device to any state it
    can ever be in. *)
Theorem every_reachable_state_recoverable
        (start g : Globals) (now : Z) :
  reachable g ->
  exists reqs out,
    serve ((now, GET_remote (Some "C"%char)) :: reqs) start = Some (g, out).
Proof.
  intros Hreach.
  destruct (reachable_serve g Hreach) as (reqs & out & Hserve).
  exists reqs, ([Remote_C; Game_reset] ++ out).
  apply (serve_app [(now, GET_remote (Some "C"%char))] reqs start boot g
           [Remote_C; Game_reset] out); [reflexivity | assumption].
Qed.

Lemma every_reachable_state_recoverable_witness :
  exists reqs out,
    serve ((7, GET_remote (Some "C"%char)) :: reqs)
          (mkGlobals MissionComplete 15 true true false 0)
    = Some (boot, out).
Proof.
  exact (every_reachable_state_recoverable
           (mkGlobals MissionComplete 15 true true false 0) boot 7
           reachable_boot).
Defined.

(** ** Time never gates the game *)

Ltac same_progress g h Hprog :=
  destruct g as [st i l cv e x]; destruct h as [st' i' l' cv' e' x'];
  unfold progress_of in Hprog; cbn in Hprog; inversion Hprog; subst st' i' l' cv';
  clear Hprog.

Lemma registerButtonPress_progress (buttonId now1 now2 : Z) (g h g1 h1 : Globals)
      (out1 out2 : list SerialLine) :
  progress_of g = progress_of h ->
  registerButtonPress buttonId now1 g = Returns tt g1 out1 ->
  registerButtonPress buttonId now2 h = Returns tt h1 out2 ->
  progress_of g1 = progress_of h1 /\ out1 = out2.
Proof.
  intros Hprog Hg Hh.
  assert (Hst : currentState g = currentState h)
    by (unfold progress_of in Hprog; congruence).
  assert (Hidx : nextSequenceIndex g = nextSequenceIndex h)
    by (unfold progress_of in Hprog; congruence).
  assert (Hl : latchTriggered g = latchTriggered h)
    by (unfold progress_of in Hprog; congruence).
  assert (Hcv : conduitsVerified g = conduitsVerified h)
    by (unfold progress_of in Hprog; congruence).
  pose proof (registerButtonPress_inv _ _ _ _ _ Hg) as Hinv.
  destruct Hinv as [(Hne & -> & ->) | (Hp3 & Hin & expected & Hnth & _)].
  - rewrite registerButtonPress_outside in Hh by congruence.
    inversion Hh; subst. auto.
  - destruct (Z.eq_dec buttonId expected) as [->|Hne].
    + rewrite (registerButtonPress_match now1 g expected) in Hg
        by (auto; lia).
      rewrite (registerButtonPress_match now2 h expected) in Hh
        by (try congruence; rewrite <- Hidx; auto; lia).
      cbv zeta in Hg, Hh. rewrite <- Hidx, <- Hl, <- Hcv in Hh.
      destruct (_ >=? _); inversion Hg; inversion Hh; subst; auto.
    + rewrite (registerButtonPress_mismatch now1 buttonId g expected) in Hg
        by (auto; lia).
      rewrite (registerButtonPress_mismatch now2 buttonId h expected) in Hh
        by (try congruence; rewrite <- Hidx; auto; lia).
      rewrite <- Hl, <- Hcv in Hh.
      inversion Hg; inversion Hh; subst; auto.
Qed.

(** X13: neither the clock nor the error display gates the game.  Served
    at two different clock readings, in two states that agree on stage,
    index, latch flag and conduit gate but may differ in the error flag and
    its expiry, a request prints the same console lines, sends the same
    status and leaves states that again agree on stage, index, latch flag
    and conduit gate. *)
Theorem progress_ignores_clock_and_error
        (req : Request) (now1 now2 : Z) (g h g1 h1 : Globals)
        (resp1 resp2 : Response) (out1 out2 : list SerialLine) :
  progress_of g = progress_of h ->
  handleClient req now1 g = Returns resp1 g1 out1 ->
  handleClient req now2 h = Returns resp2 h1 out2 ->
  progress_of g1 = progress_of h1 /\
  out1 = out2 /\
  status resp1 = status resp2.
Proof.
  intros Hprog Hg Hh.
  assert (Hstatus : status resp1 = status resp2).
  { rewrite (handleClient_status _ _ _ _ _ _ Hg),
      (handleClient_status _ _ _ _ _ _ Hh). reflexivity. }
  cut (progress_of g1 = progress_of h1 /\ out1 = out2); [tauto|].
  assert (Hstory : forall s1 s2 o1 o2 a b,
             storyTextForState now1 g = Returns s1 a o1 ->
             storyTextForState now2 h = Returns s2 b o2 ->
             progress_of a = progress_of b /\ o1 = o2).
  { intros s1 s2 o1 o2 a b Ha Hb.
    destruct (storyTextForState_effect _ _ _ _ _ Ha) as (-> & Hpa & _).
    destruct (storyTextForState_effect _ _ _ _ _ Hb) as (-> & Hpb & _).
    split; [congruence|reflexivity]. }
  destruct req as [ | | | [btn|] | [value|] | | ]; cbn [handleClient] in Hg, Hh.
  - unfold handleRoot, bind in Hg, Hh.
    destruct (storyTextForState now1 g) as [s1 a o1|] eqn:Ha; [|discriminate].
    destruct (storyTextForState now2 h) as [s2 b o2|] eqn:Hb; [|discriminate].
    cbn in Hg, Hh. inversion Hg; inversion Hh; subst.
    rewrite !app_nil_r. eauto.
  - unfold handleDcdFragment, bind in Hg, Hh.
    destruct (storyTextForState now1 g) as [s1 a o1|] eqn:Ha; [|discriminate].
    destruct (storyTextForState now2 h) as [s2 b o2|] eqn:Hb; [|discriminate].
    cbn in Hg, Hh. inversion Hg; inversion Hh; subst.
    rewrite !app_nil_r. eauto.
  - inversion Hg; inversion Hh; subst. auto.
  - unfold handleRemoteEndpoint in Hg, Hh.
    destruct (handleRemoteButton_cases btn)
      as [[Hr Hb]|[[Hr Hb]|[[Hr Hb]|[[Hr Hb]|[Hr Hb]]]]];
      rewrite Hb in Hg, Hh; unfold bind, Serial_println, ret in Hg, Hh;
      try rewrite advanceToPuzzle_run in Hg, Hh;
      try rewrite completeMission_run in Hg, Hh;
      try rewrite resetGame_run in Hg, Hh;
      same_progress g h Hprog; cbn in Hg, Hh;
      try (destruct st; cbn in Hg, Hh); try (destruct l; cbn in Hg, Hh);
      inversion Hg; inversion Hh; subst; auto.
  - inversion Hg; inversion Hh; subst. auto.
  - unfold handlePuzzleButtonEndpoint in Hg, Hh.
    destruct (_ || _); [inversion Hg; inversion Hh; subst; auto|].
    unfold bind, ret in Hg, Hh.
    destruct (registerButtonPress (value mod 256) now1 g) as [[] a o1|] eqn:Ha;
      [|discriminate].
    destruct (registerButtonPress (value mod 256) now2 h) as [[] b o2|] eqn:Hb;
      [|discriminate].
    inversion Hg; inversion Hh; subst. rewrite !app_nil_r.
    eapply registerButtonPress_progress; eauto.
  - inversion Hg; inversion Hh; subst. auto.
  - unfold handleConfirmConduitsEndpoint, bind in Hg, Hh.
    rewrite confirmConduitsAligned_run in Hg, Hh.
    same_progress g h Hprog; cbn in Hg, Hh.
    destruct st, cv; cbn in Hg, Hh; inversion Hg; inversion Hh; subst; auto.
  - inversion Hg; inversion Hh; subst. auto.
Qed.

Lemma progress_ignores_clock_and_error_witness :
  progress_of (mkGlobals Puzzle3 0 false false true 2600)
  = progress_of (mkGlobals Puzzle3 0 false false true 4294967295).
Proof.
  apply (progress_ignores_clock_and_error
           (GET_puzzle_button (Some 2)) 100 4294964795
           (mkGlobals Puzzle3 1 false false false 0)
           (mkGlobals Puzzle3 1 false false true 77)
           (mkGlobals Puzzle3 0 false false true 2600)
           (mkGlobals Puzzle3 0 false false true 4294967295)
           (mkResponse 200 (Text_button_registered 2))
           (mkResponse 200 (Text_button_registered 2))
           [Buttons_received 2; Buttons_incorrect 1]
           [Buttons_received 2; Buttons_incorrect 1]);
    reflexivity.
Defined.

Lemma display_step_progress (req : Request) (now : Z) (g g' : Globals)
      (resp : Response) (out : list SerialLine) :
  req = GET_root \/ req = GET_dcd_fragment ->
  handleClient req now g = Returns resp g' out ->
  out = [] /\ progress_of g' = progress_of g.
Proof.
  intros [-> | ->]; cbn [handleClient]; unfold handleRoot, handleDcdFragment, bind;
    intros H;
    (destruct (storyTextForState now g) as [s g1 o1|] eqn:Hs; [|discriminate]);
    cbn in H; inversion H; subst; rewrite app_nil_r;
    destruct (storyTextForState_effect _ _ _ _ _ Hs) as (-> & Hp & _); auto.
Qed.

(** ** The stage machine seen from the endpoints *)

Lemma handleRemoteButton_bound (btn : ascii) :
  ((btn = "A"%char \/ btn = "a"%char) /\
   handleRemoteButton btn = (Serial_println Remote_A ;; advanceToPuzzle Puzzle2)) \/
  ((btn = "B"%char \/ btn = "b"%char) /\
   handleRemoteButton btn = (Serial_println Remote_B ;; advanceToPuzzle Puzzle3)) \/
  ((btn = "C"%char \/ btn = "c"%char) /\
   handleRemoteButton btn = (Serial_println Remote_C ;; resetGame)) \/
  ((btn = "D"%char \/ btn = "d"%char) /\
   handleRemoteButton btn = (Serial_println Remote_D ;; completeMission)) \/
  (is_bound_button btn = false /\
   handleRemoteButton btn = Serial_println Remote_unknown).
Proof.
  destruct btn as [[|] [|] [|] [|] [|] [|] [|] [|]]; cbn; auto 8.
Qed.

(** X14: the only stage changes a request can make.  Puzzle1 to Puzzle2
    happens only on remote A, Puzzle2 to Puzzle3 only on remote B, a move
    to Puzzle1 only on remote C, and MissionComplete is entered only on
    remote D or on puzzle button 1 pressed in Puzzle3 with the index at 14;
    every other request leaves the stage where it was. *)
Theorem stage_changes_by_request
        (req : Request) (now : Z) (g g' : Globals) (resp : Response)
        (out : list SerialLine) :
  handleClient req now g = Returns resp g' out ->
  currentState g' <> currentState g ->
  (currentState g = Puzzle1 /\ currentState g' = Puzzle2 /\
   (req = GET_remote (Some "A"%char) \/ req = GET_remote (Some "a"%char))) \/
  (currentState g = Puzzle2 /\ currentState g' = Puzzle3 /\
   (req = GET_remote (Some "B"%char) \/ req = GET_remote (Some "b"%char))) \/
  (currentState g' = Puzzle1 /\
   (req = GET_remote (Some "C"%char) \/ req = GET_remote (Some "c"%char))) \/
  (currentState g' = MissionComplete /\
   (req = GET_remote (Some "D"%char) \/ req = GET_remote (Some "d"%char))) \/
  (currentState g = Puzzle3 /\ currentState g' = MissionComplete /\
   nextSequenceIndex g = 14 /\ req = GET_puzzle_button (Some 1)).
Proof.
  intros H Hchange.
  destruct req as [ | | | [btn|] | [value|] | | ]; cbn [handleClient] in H.
  - exfalso. apply Hchange.
    destruct (display_step_progress GET_root now g g' resp out) as (_ & Hp);
      [auto | assumption | unfold progress_of in Hp; congruence].
  - exfalso. apply Hchange.
    destruct (display_step_progress GET_dcd_fragment now g g' resp out)
      as (_ & Hp);
      [auto | assumption | unfold progress_of in Hp; congruence].
  - inversion H; subst. congruence.
  - unfold handleRemoteEndpoint in H.
    destruct (handleRemoteButton_bound btn)
      as [[Hb Hop]|[[Hb Hop]|[[Hb Hop]|[[Hb Hop]|[Hb Hop]]]]];
      rewrite Hop in H; unfold bind, Serial_println, ret in H;
      try rewrite advanceToPuzzle_run in H;
      try rewrite completeMission_run in H;
      try rewrite resetGame_run in H.
    + destruct g as [[] i l cv e x]; cbn in *; inversion H; subst;
        cbn in Hchange; try congruence.
      left. repeat split. destruct Hb as [-> | ->]; auto.
    + destruct g as [[] i l cv e x]; cbn in *; inversion H; subst;
        cbn in Hchange; try congruence.
      right; left. repeat split. destruct Hb as [-> | ->]; auto.
    + inversion H; subst. right; right; left. split; [reflexivity|].
      destruct Hb as [-> | ->]; auto.
    + destruct (latchTriggered g); inversion H; subst;
        right; right; right; left; (split; [reflexivity|]);
        destruct Hb as [-> | ->]; auto.
    + inversion H; subst. congruence.
  - inversion H; subst. congruence.
  - unfold handlePuzzleButtonEndpoint in H.
    destruct (Z.ltb_spec value 1) as [Hlo|Hlo]; cbn [orb] in H.
    { inversion H; subst. congruence. }
    destruct (Z.gtb_spec value 5) as [Hhi|Hhi].
    { inversion H; subst. congruence. }
    unfold bind, ret in H. rewrite Z.mod_small in H by lia.
    destruct (registerButtonPress value now g) as [[] g1 o1|] eqn:Hpress;
      [|discriminate].
    inversion H; subst. clear H.
    apply registerButtonPress_inv in Hpress.
    destruct Hpress as [(_ & -> & _) | (Hst & Hin & expected & Hnth & Hcases)];
      [congruence|].
    change BUTTON_SEQUENCE_LENGTH with 15 in *. cbv zeta in Hcases.
    rewrite MachineFacts.to_unsigned_small in Hcases
      by (unfold Machine.is_word, Machine.modulus, Machine.WORD_BITS; lia).
    destruct Hcases as [(_ & _ & -> & _) | [(-> & Hge & -> & _) | (_ & -> & _)]];
      cbn in Hchange; try congruence.
    right; right; right; right.
    assert (Hidx : nextSequenceIndex g = 14) by lia.
    rewrite Hidx in Hnth. cbn in Hnth. inversion Hnth; subst.
    repeat split; auto.
  - inversion H; subst. congruence.
  - unfold handleConfirmConduitsEndpoint, bind in H.
    rewrite confirmConduitsAligned_run in H.
    destruct g as [[] i l [|] e x]; cbn in *; inversion H; subst;
      cbn in Hchange; congruence.
  - inversion H; subst. congruence.
Qed.

Lemma stage_changes_by_request_witness :
  (currentState (mkGlobals Puzzle3 14 false false false 0) = Puzzle3 /\
   currentState (mkGlobals MissionComplete 15 true false false 0)
   = MissionComplete /\
   nextSequenceIndex (mkGlobals Puzzle3 14 false false false 0) = 14 /\
   GET_puzzle_button (Some 1) = GET_puzzle_button (Some 1)).
Proof.
  destruct (stage_changes_by_request
              (GET_puzzle_button (Some 1)) 50
              (mkGlobals Puzzle3 14 false false false 0)
              (mkGlobals MissionComplete 15 true false false 0)
              (mkResponse 200 (Text_button_registered 1))
              [Buttons_received 1; Buttons_progress 15 15;
               Latch_released; Game_mission_complete]
              eq_refl)
    as [(H & _) | [(H & _) | [(H & _) | [(_ & [H | H]) | H]]]];
    [cbn; discriminate | discriminate H | discriminate H | discriminate H
    | discriminate H | discriminate H | exact H].
Defined.

(** X15: MissionComplete is absorbing.  In a reachable state in stage
    MissionComplete every request other than a remote reset -- forced
    completion included -- leaves all globals as they are and does not
    fire the latch. *)
Theorem mission_complete_is_absorbing
        (req : Request) (now : Z) (g g' : Globals) (resp : Response)
        (out : list SerialLine) :
  reachable g ->
  currentState g = MissionComplete ->
  is_remote_reset req = false ->
  handleClient req now g = Returns resp g' out ->
  g' = g /\ latch_firings out = 0%nat.
Proof.
  intros Hreach Hdone Hsession Hserve.
  pose proof (reachable_latch_matches_stage g Hreach) as Hlatch.
  pose proof (reachable_error_consistent g Hreach) as (Harmed & Hidle & _).
  unfold latch_matches_stage in Hlatch.
  apply handleClient_served in Hserve.
  destruct g as [st i l cv e x]; cbn in *; subst st.
  assert (l = true) by (apply Hlatch; reflexivity). subst l.
  assert (e = false)
    by (destruct e; [destruct (Harmed eq_refl); discriminate | reflexivity]).
  subst e. rewrite (Hidle eq_refl) in *.
  served_inv Hserve; cbn in *.
  - auto.
  - discriminate.
  - destruct Hline as [-> | ->]; destruct target; inversion Hadv; subst; auto.
  - congruence.
  - inversion Hcm; subst. auto.
  - auto.
  - destruct Hpress as [(_ & -> & ->) | (Hst & _)]; [auto | discriminate].
  - inversion Hconf; subst. auto.
Qed.

Lemma mission_complete_is_absorbing_witness :
  mkGlobals MissionComplete 0 true false false 0
  = mkGlobals MissionComplete 0 true false false 0 /\
  latch_firings [Remote_D; Game_mission_complete] = 0%nat.
Proof.
  assert (Hreach : reachable (mkGlobals MissionComplete 0 true false false 0)).
  { apply (serve_reachable [(100, GET_remote (Some "D"%char))] boot _
             [Remote_D; Latch_released; Game_mission_complete] reachable_boot).
    - repeat constructor; cbn; lia.
    - reflexivity. }
  exact (mission_complete_is_absorbing
           (GET_remote (Some "D"%char)) 200
           (mkGlobals MissionComplete 0 true false false 0)
           (mkGlobals MissionComplete 0 true false false 0)
           (mkResponse 200 (Text_remote_accepted "D"%char))
           [Remote_D; Game_mission_complete]
           Hreach eq_refl eq_refl eq_refl).
Defined.

(** X16: a wrong puzzle button shows on the display.  In Puzzle3 a press of
    an id within 1..5 that is not the expected one is answered 200, puts the
    index back to 0 and arms the error; a fragment polled less than 2500 ms
    later shows the panel with next input 4, the first slot active, and the
    alert, and changes nothing; a fragment polled at least 2500 ms (and less
    than 2500 + 2^31 ms) later shows the same panel without the alert and
    clears the error. *)
Theorem wrong_button_flashes_alert
        (now value expected : Z) (g : Globals) :
  currentState g = Puzzle3 ->
  0 <= nextSequenceIndex g ->
  nth_error BUTTON_SEQUENCE (Z.to_nat (nextSequenceIndex g)) = Some expected ->
  1 <= value <= 5 ->
  value <> expected ->
  let flagged :=
    mkGlobals Puzzle3 0 (latchTriggered g) (conduitsVerified g) true
              (Machine.to_unsigned (now + SEQUENCE_ERROR_FLASH_MS)) in
  let cleared :=
    mkGlobals Puzzle3 0 (latchTriggered g) (conduitsVerified g) false 0 in
  let panel := mkSequenceStatus (Some 4) (sequence_row 0 0 BUTTON_SEQUENCE) in
  handleClient (GET_puzzle_button (Some value)) now g
  = Returns (mkResponse 200 (Text_button_registered value)) flagged
            [Buttons_received value; Buttons_incorrect expected] /\
  (forall elapsed : Z,
      0 <= elapsed < SEQUENCE_ERROR_FLASH_MS ->
      handleClient GET_dcd_fragment (Machine.to_unsigned (now + elapsed)) flagged
      = Returns (mkResponse 200 (Fragment_dcd (Story_button_sequence panel true)))
                flagged []) /\
  (forall elapsed : Z,
      SEQUENCE_ERROR_FLASH_MS <= elapsed
        < SEQUENCE_ERROR_FLASH_MS + Machine.half_modulus ->
      handleClient GET_dcd_fragment (Machine.to_unsigned (now + elapsed)) flagged
      = Returns (mkResponse 200 (Fragment_dcd (Story_button_sequence panel false)))
                cleared []).
Proof.
  intros Hst Hpos Hnth Hrange Hne flagged cleared panel.
  split; [|split].
  - cbn [handleClient]. unfold handlePuzzleButtonEndpoint.
    destruct (Z.ltb_spec value 1); [lia|]. cbn [orb].
    destruct (Z.gtb_spec value 5); [lia|].
    unfold bind, ret. rewrite Z.mod_small by lia.
    rewrite (registerButtonPress_mismatch now value g expected) by assumption.
    reflexivity.
  - intros elapsed Helapsed. cbn [handleClient]. unfold handleDcdFragment, bind.
    rewrite (storyTextForState_puzzle3 _ flagged flagged 4 true);
      try reflexivity.
    rewrite isSequenceErrorActive_run.
    cbn [sequenceError negb sequenceErrorExpiresAt flagged].
    rewrite MachineFacts.signed_distance.
    pose proof (MachineFacts.to_signed_before elapsed Helapsed) as Hneg.
    destruct (Z.geb_spec (Machine.to_signed (elapsed - SEQUENCE_ERROR_FLASH_MS)) 0);
      [lia|reflexivity].
  - intros elapsed Helapsed. cbn [handleClient]. unfold handleDcdFragment, bind.
    rewrite (storyTextForState_puzzle3 _ flagged cleared 4 false);
      try reflexivity.
    rewrite isSequenceErrorActive_run.
    cbn [sequenceError negb sequenceErrorExpiresAt flagged].
    rewrite MachineFacts.signed_distance.
    pose proof (MachineFacts.to_signed_after elapsed Helapsed) as Hnonneg.
    destruct (Z.geb_spec (Machine.to_signed (elapsed - SEQUENCE_ERROR_FLASH_MS)) 0);
      [reflexivity|lia].
Qed.

Lemma wrong_button_flashes_alert_witness :
  handleClient (GET_puzzle_button (Some 3)) 1000
               (mkGlobals Puzzle3 2 false true false 0)
  = Returns (mkResponse 200 (Text_button_registered 3))
            (mkGlobals Puzzle3 0 false true true 3500)
            [Buttons_received 3; Buttons_incorrect 5].
Proof.
  assert (Hpos : 0 <= nextSequenceIndex (mkGlobals Puzzle3 2 false true false 0))
    by (cbn; lia).
  assert (Hrange : 1 <= 3 <= 5) by lia.
  assert (Hne : 3 <> 5) by discriminate.
  exact (proj1 (wrong_button_flashes_alert
                  1000 3 5 (mkGlobals Puzzle3 2 false true false 0)
                  eq_refl Hpos eq_refl Hrange Hne)).
Defined.
